(** * WTFIX: settings resolution and the client launcher

    A shallow embedding of [wtfix/conf/__init__.py] (the [Settings] and
    [SessionSettings] classes) and of the [__main__] block of
    [run_client.py], with the properties of the design document that can be
    stated over them.

    Layout: [Py] holds the fragment of Python the two files rely on (values,
    exceptions, string and dict primitives), [Conf] the settings module,
    [RunClient] the launcher, [Samples] a few concrete configurations; the
    facts about them follow the definitions.

    Modelling choices: dict keys are strings; importing a module has no
    effect on the settings object; the launcher is followed from the moment
    the pipeline object exists, signal handlers that fire while the start
    is awaited are outside the model. *)

From Stdlib Require Import ZArith String Ascii List.
From stdpp Require Import base option list strings gmap.

(* ===================================================================== *)
(** ** The Python fragment *)
(* ===================================================================== *)

Module Py.

(** Values that settings can hold.  A [dict] is kept as its items in
    insertion order (Python dicts iterate in that order); its keys are
    strings, and a dict built by Python never repeats a key ([dict_wf]).
    A class object is identified by its qualified name. *)
#[warnings="-register-all"]
Inductive pyval : Type :=
| VNone
| VBool (b : bool)
| VInt (z : Z)
| VStr (s : string)
| VList (l : list pyval)
| VTuple (l : list pyval)
| VDict (d : list (string * pyval))
| VClass (qualname : string).

(** The exception classes the two files raise, catch or let through. *)
Inductive exn : Type :=
| ImproperlyConfigured (msg : string)
| KeyError (key : string)
| ValueError (msg : string)
| TypeError (msg : string)
| AttributeError (msg : string)
| ImportError (msg : string)
| TimeoutError (msg : string)
| CancelledError (msg : string)
| KeyboardInterrupt
| SystemExit (code : Z)
| OtherException (cls msg : string).

(** [issubclass(type(e), Exception)]: what a bare [except Exception]
    catches.  [KeyboardInterrupt] and [SystemExit] derive from
    [BaseException] only. *)
Definition is_Exception (e : exn) : bool :=
  match e with
  | KeyboardInterrupt | SystemExit _ => false
  | _ => true
  end.

(** The outcome of evaluating an expression or running a block. *)
Inductive Result (A : Type) : Type :=
| Ok (a : A)
| Raise (e : exn).
Global Arguments Ok {A} a.
Global Arguments Raise {A} e.

Global Instance Result_ret : MRet Result := λ A a, Ok a.
Global Instance Result_bind : MBind Result := λ A B f r,
  match r with
  | Ok a => f a
  | Raise e => Raise e
  end.

(** [for x in l: acc = body(acc, x)], stopping at the first exception. *)
Fixpoint for_each {A B : Type} (body : B → A → Result B) (acc : B)
    (l : list A) : Result B :=
  match l with
  | [] => Ok acc
  | x :: l' =>
      match body acc x with
      | Ok acc' => for_each body acc' l'
      | Raise e => Raise e
      end
  end.

(** *** Strings *)

Definition is_upper_ascii (c : ascii) : bool :=
  let n := nat_of_ascii c in (65 <=? n)%nat && (n <=? 90)%nat.

Definition is_lower_ascii (c : ascii) : bool :=
  let n := nat_of_ascii c in (97 <=? n)%nat && (n <=? 122)%nat.

Fixpoint has_upper (s : string) : bool :=
  match s with
  | EmptyString => false
  | String c s' => is_upper_ascii c || has_upper s'
  end.

Fixpoint has_lower (s : string) : bool :=
  match s with
  | EmptyString => false
  | String c s' => is_lower_ascii c || has_lower s'
  end.

(** [str.isupper()] on an ASCII name: at least one cased character, and
    no cased character in lower case. *)
Definition isupper (s : string) : bool :=
  has_upper s && negb (has_lower s).

(** [s.rsplit(".", 1)]: cut at the last dot, if there is one. *)
Fixpoint rsplit_last_dot (s : string) : option (string * string) :=
  match s with
  | EmptyString => None
  | String c s' =>
      match rsplit_last_dot s' with
      | Some (a, b) => Some (String c a, b)
      | None => if Ascii.eqb c "."%char then Some (EmptyString, s') else None
      end
  end.

Definition str_rsplit_dot (s : string) : list string :=
  match rsplit_last_dot s with
  | Some (a, b) => [a; b]
  | None => [s]
  end.

(** [value.rsplit(".", 1)] on any value: only [str] has the method. *)
Definition rsplit_dot (v : pyval) : Result (list string) :=
  match v with
  | VStr s => Ok (str_rsplit_dot s)
  | _ => Raise (AttributeError "rsplit")
  end.

(** [a, b = parts]. *)
Definition unpack2 (parts : list string) : Result (string * string) :=
  match parts with
  | [a; b] => Ok (a, b)
  | [] | [_] => Raise (ValueError "not enough values to unpack (expected 2)")
  | _ => Raise (ValueError "too many values to unpack (expected 2)")
  end.

(** [sep.join(l)]. *)
Fixpoint join (sep : string) (l : list string) : string :=
  match l with
  | [] => ""
  | [x] => x
  | x :: l' => x +:+ sep +:+ join sep l'
  end.

(** [repr] of a string without quotes, backslashes or control
    characters, and of a non-empty set of such strings.  Python lists
    the elements of a set in an order of its own; the model takes the
    one of [elements]. *)
Definition repr_str (s : string) : string := "'" +:+ s +:+ "'".

Definition repr_set (ids : gset string) : string :=
  match elements ids with
  | [] => "set()"
  | l => "{" +:+ join ", " (repr_str <$> l) +:+ "}"
  end.

(** *** Dicts and attribute namespaces *)

(** [d[key]] on the items of a dict, [None] when the key is absent. *)
Fixpoint dict_get (d : list (string * pyval)) (key : string) : option pyval :=
  match d with
  | [] => None
  | (k, v) :: d' => if String.eqb k key then Some v else dict_get d' key
  end.

Definition dict_keys (d : list (string * pyval)) : list string := d.*1.

Definition dict_wf (d : list (string * pyval)) : Prop := NoDup (dict_keys d).

(** [d[key]] where [d] is known to be a dict. *)
Definition dict_getitem (d : list (string * pyval)) (key : string)
    : Result pyval :=
  match dict_get d key with
  | Some v => Ok v
  | None => Raise (KeyError key)
  end.

(** [v[key]] with a string key on any value: only a dict accepts it. *)
Definition getitem_str (v : pyval) (key : string) : Result pyval :=
  match v with
  | VDict d => dict_getitem d key
  | _ => Raise (TypeError "indices must be integers or object is not subscriptable")
  end.

(** [v.items()]: only a dict has the method. *)
Definition items (v : pyval) : Result (list (string * pyval)) :=
  match v with
  | VDict d => Ok d
  | _ => Raise (AttributeError "items")
  end.

(** [isinstance(v, (list, tuple))]. *)
Definition isinstance_list_tuple (v : pyval) : bool :=
  match v with
  | VList _ | VTuple _ => true
  | _ => false
  end.

(** A module object: its namespace, listed in the order of [dir]. *)
Definition module : Type := list (string * pyval).

Definition dir (m : module) : list string := m.*1.

Definition module_getattr (m : module) (name : string) : Result pyval :=
  match dict_get m name with
  | Some v => Ok v
  | None => Raise (AttributeError name)
  end.

(** [obj.name] on an instance whose attributes are [ns]. *)
Definition getattr (ns : gmap string pyval) (name : string) : Result pyval :=
  match ns !! name with
  | Some v => Ok v
  | None => Raise (AttributeError name)
  end.

(** [msg] contains [x]. *)
Definition mentions (msg x : string) : Prop :=
  ∃ pre post : string, msg = pre +:+ x +:+ post.

End Py.

(* ===================================================================== *)
(** ** wtfix/conf/__init__.py *)
(* ===================================================================== *)

Module Conf.
Import Py.

Definition ENVIRONMENT_VARIABLE : string := "WTFIX_SETTINGS_MODULE".

(** A [Settings] instance.  [attrs] holds the attributes written with
    [setattr], that is the ALL_CAPS settings (and WTFIX_SETTINGS_MODULE);
    the three private attributes have lower-case names, so no setting can
    shadow them. *)
Record Settings : Type := mkSettings {
  _logger : option string;
  attrs : gmap string pyval;
  _explicit_settings : gset string;
  _active_protocol : pyval;
}.

(** *** Settings.__init__ *)

Section Resolution.

(** [wtfix.conf.global_settings], the import system and [os.environ]. *)
Variable global_settings : module.
Variable import_module : string → Result module.
Variable environ : gmap string string.

Definition not_configured_msg : string :=
  "Settings are not configured. You must either define the environment variable "
  +:+ ENVIRONMENT_VARIABLE
  +:+ " or call settings.configure() before accessing settings.".

Definition must_be_list_msg (setting : string) : string :=
  "The " +:+ setting +:+ " setting must be a list or a tuple. ".

(** Lines 46-53: the name of the settings module. *)
Definition settings_module_name (settings_module : option string)
    : Result string :=
  match settings_module with
  | Some m => Ok m
  | None =>
      match environ !! ENVIRONMENT_VARIABLE with
      | None | Some EmptyString =>
          Raise (ImproperlyConfigured not_configured_msg)
      | Some m => Ok m
      end
  end.

(** Lines 55-57: copy the ALL_CAPS names of [global_settings]. *)
Definition load_defaults (ns : gmap string pyval)
    : Result (gmap string pyval) :=
  for_each
    (λ ns setting,
       if isupper setting then
         v ← module_getattr global_settings setting;
         mret (<[setting := v]> ns)
       else Ok ns)
    ns (dir global_settings).

(** Lines 66-78: copy the ALL_CAPS names of the settings module, checking
    the settings that must be collections. *)
Definition load_overrides (mod_ : module)
    (st : gmap string pyval * gset string)
    : Result (gmap string pyval * gset string) :=
  for_each
    (λ '(ns, explicit) setting,
       if isupper setting then
         setting_value ← module_getattr mod_ setting;
         if String.eqb setting "PIPELINE_APPS"
            && negb (isinstance_list_tuple setting_value)
         then Raise (ImproperlyConfigured (must_be_list_msg setting))
         else Ok (<[setting := setting_value]> ns, explicit ∪ {[setting]})
       else Ok (ns, explicit))
    st (dir mod_).

(** Lines 54-80: everything after the module name is known. *)
Definition Settings_load (settings_module : string) : Result Settings :=
  ns ← load_defaults ∅;
  let ns := <["WTFIX_SETTINGS_MODULE" := VStr settings_module]> ns in
  mod_ ← import_module settings_module;
  '(ns, explicit) ← load_overrides mod_ (ns, ∅);
  mret {| _logger := None; attrs := ns;
          _explicit_settings := explicit; _active_protocol := VNone |}.

Definition Settings_init (settings_module : option string) : Result Settings :=
  name ← settings_module_name settings_module;
  Settings_load name.

End Resolution.

(** *** Read-only properties of Settings *)

(** [self.CONNECTIONS].  The configuration schema makes it a dict from
    connection names to dicts of parameters; the model follows the source
    on such values only, and ends with a [TypeError] on any other. *)
Definition CONNECTIONS (self : Settings) : Result (list (string * pyval)) :=
  match attrs self !! "CONNECTIONS" with
  | None => Raise (AttributeError "CONNECTIONS")
  | Some (VDict d) => Ok d
  | Some _ => Raise (TypeError "CONNECTIONS is not a dict")
  end.

Definition has_safe_defaults (self : Settings) : Result bool :=
  conns ← CONNECTIONS self;
  mret (length conns =? 1)%nat.

Definition ambiguous_msg : string :=
  "Cannot fall back to using session defaults as more than one session has been configured "
  +:+ "using the 'SESSIONS' parameter. You MUST specify which sessions' configuration settings to use.".

Definition default_connection_name (self : Settings) : Result string :=
  safe ← has_safe_defaults self;
  if (safe : bool) then
    conns ← CONNECTIONS self;
    match conns with
    | (name, _) :: _ => Ok name
    | [] => Raise (OtherException "StopIteration" "")
    end
  else Raise (ImproperlyConfigured ambiguous_msg).

Definition no_template_msg (missing_identifiers : gset string) : string :=
  "No group template defined for identifier(s): "
  +:+ repr_set missing_identifiers +:+ ".".

Definition get_group_templates (self : Settings)
    (connection_name : option string) (identifiers : option (gset string))
    : Result pyval :=
  connection_name ←
    match connection_name with
    | None => default_connection_name self
    | Some name => Ok name
    end;
  conns ← CONNECTIONS self;
  connection ← dict_getitem conns connection_name;
  session_templates ← getitem_str connection "GROUP_TEMPLATES";
  match identifiers with
  | None => Ok session_templates
  | Some identifiers =>
      session_items ← items session_templates;
      let templates :=
        filter (λ it, it.1 ∈ identifiers) session_items in
      if negb (length templates =? size identifiers)%nat then
        let missing_identifiers :=
          identifiers ∖ list_to_set (dict_keys templates) in
        Raise (ImproperlyConfigured (no_template_msg missing_identifiers))
      else Ok (VDict templates)
  end.

(** *** The shared settings object and projection *)

(** The module creates one instance, [settings = Settings()], and
    [SessionSettings] reads and writes that instance; the methods of
    [Settings] that build a [SessionSettings] are modelled on it.  A state
    is the instance together with the names passed to
    [importlib.import_module] so far. *)
Record World : Type := mkWorld {
  settings : Settings;
  imported : list string;
}.

(** A [SessionSettings] instance: the attributes written with [setattr]. *)
Record SessionSettings : Type := mkSession {
  session_attrs : gmap string pyval;
}.

(** An exception leaves the writes made before it in place, so the state
    is returned on both outcomes. *)
Definition M (A : Type) : Type := World → Result A * World.

#[global] Instance M_ret : MRet M := λ A a w, (Ok a, w).
#[global] Instance M_bind : MBind M := λ A B f m w,
  match m w with
  | (Ok a, w') => f a w'
  | (Raise e, w') => (Raise e, w')
  end.

Definition lift {A : Type} (r : Result A) : M A := λ w, (r, w).

Definition the_settings : M Settings := λ w, (Ok (settings w), w).

(** [for x in l], stopping at the first exception. *)
Fixpoint for_in {A B : Type} (body : B → A → M B) (acc : B) (l : list A)
    : M B :=
  match l with
  | [] => mret acc
  | x :: l' => acc' ← body acc x; for_in body acc' l'
  end.

(** [self._active_protocol = c]. *)
Definition with_protocol (c : pyval) (self : Settings) : Settings :=
  {| _logger := _logger self; attrs := attrs self;
     _explicit_settings := _explicit_settings self; _active_protocol := c |}.

(** The setter of [active_protocol] (lines 111-113), on [settings]. *)
Definition set_active_protocol (protocol_class : pyval) : M unit := λ w,
  (Ok tt,
   {| settings := with_protocol protocol_class (settings w);
      imported := imported w |}).

(** [obj[index]] on a [SessionSettings] instance: the class defines no
    [__getitem__], so the subscript raises whatever the index. *)
Definition SessionSettings_getitem (obj : SessionSettings) (index : Z)
    : Result string :=
  Raise (TypeError "'SessionSettings' object is not subscriptable").

Section Projection.

Variable import_module : string → Result module.

(** [importlib.import_module(name)]: the call is recorded. *)
Definition import (name : string) : M module := λ w,
  (import_module name,
   {| settings := settings w; imported := imported w ++ [name] |}).

(** Lines 173-175, and again 103-105: from a dotted reference to the
    object it names. *)
Definition load_class (reference : pyval) : M pyval :=
  parts ← lift (rsplit_dot reference);
  '(mod_name, class_name) ← lift (unpack2 parts);
  module ← import mod_name;
  lift (module_getattr module class_name).

(** The value [load_class] yields, as a function of the import system. *)
Definition resolve (reference : pyval) : Result pyval :=
  parts ← rsplit_dot reference;
  '(mod_name, class_name) ← unpack2 parts;
  module ← import_module mod_name;
  module_getattr module class_name.

(** Lines 172-179: one turn of the loop of [SessionSettings.__init__]. *)
Definition copy_setting (this : SessionSettings) (item : string * pyval)
    : M SessionSettings :=
  let '(setting, setting_value) := item in
  (if String.eqb setting "PROTOCOL" then
     protocol_class ← load_class setting_value;
     set_active_protocol protocol_class
   else mret tt);;
  mret {| session_attrs := <[setting := setting_value]> (session_attrs this) |}.

(** Lines 171-179 of [SessionSettings.__init__], where [connection_name]
    is bound to a name. *)
Definition SessionSettings_populate (connection_name : string)
    : M SessionSettings :=
  self ← the_settings;
  conns ← lift (CONNECTIONS self);
  connection ← lift (dict_getitem conns connection_name);
  connection_items ← lift (items connection);
  for_in copy_setting {| session_attrs := ∅ |} connection_items.

(** [Settings.default_connection] (lines 96-98).  The name it passes is a
    key of CONNECTIONS, never [None], so the constructor goes straight to
    line 171. *)
Definition default_connection : M SessionSettings :=
  self ← the_settings;
  name ← lift (default_connection_name self);
  SessionSettings_populate name.

(** [SessionSettings.__init__] (lines 167-179). *)
Definition SessionSettings_init (connection_name : option string)
    : M SessionSettings :=
  connection_name ←
    match connection_name with
    | None =>
        dc ← default_connection;
        lift (SessionSettings_getitem dc 0)
    | Some name => mret name
    end;
  SessionSettings_populate connection_name.

(** The getter of [active_protocol] (lines 100-109), on [settings]. *)
Definition active_protocol : M pyval :=
  self ← the_settings;
  match _active_protocol self with
  | VNone =>
      dc ← default_connection;
      protocol ← lift (getattr (session_attrs dc) "PROTOCOL");
      protocol_class ← load_class protocol;
      set_active_protocol protocol_class;;
      self ← the_settings;
      mret (_active_protocol self)
  | cached => mret cached
  end.

End Projection.

(** *** What projection may change *)

(** [w'] differs from [w] at most in the active-protocol cache and in the
    record of imports. *)
Definition frame (w w' : World) : Prop :=
  _logger (settings w') = _logger (settings w)
  ∧ attrs (settings w') = attrs (settings w)
  ∧ _explicit_settings (settings w') = _explicit_settings (settings w).

Definition framed {A : Type} (m : M A) : Prop := ∀ w, frame w (m w).2.

(** The attributes the loop of [SessionSettings.__init__] has written
    once it has gone through [connection_items]. *)
Definition written (this : SessionSettings)
    (connection_items : list (string * pyval)) : SessionSettings :=
  foldl (λ this it, {| session_attrs := <[it.1 := it.2]> (session_attrs this) |})
        this connection_items.

(** *** The logger *)

(** [self._logger = value].  A logger object is told apart by an
    identifier; [None] is Python's [None]. *)
Definition with_logger (value : option string) (self : Settings) : Settings :=
  {| _logger := value; attrs := attrs self;
     _explicit_settings := _explicit_settings self;
     _active_protocol := _active_protocol self |}.

(** The setter of [logger] (lines 122-124), on [settings]. *)
Definition set_logger (value : option string) : M unit := λ w,
  (Ok tt,
   {| settings := with_logger value (settings w); imported := imported w |}).

Section Logger.

(** [logging.getLogger], of the standard library: the logger it hands out
    for a name, or the exception it raises. *)
Variable getLogger : pyval → Result string.

(** The getter of [logger] (lines 115-120), on [settings]; line 118 reads
    LOGGER from the module-level [settings]. *)
Definition logger : M (option string) :=
  self ← the_settings;
  (match _logger self with
   | None =>
       glob ← the_settings;
       name ← lift (getattr (attrs glob) "LOGGER");
       new_logger ← lift (getLogger name);
       set_logger (Some new_logger)
   | Some _ => mret tt
   end);;
  self ← the_settings;
  mret (_logger self).

End Logger.

End Conf.

(* ===================================================================== *)
(** ** run_client.py *)
(* ===================================================================== *)

Module RunClient.
Import Py.

(** [os.EX_OK] and [os.EX_UNAVAILABLE]. *)
Definition EX_OK : Z := 0.
Definition EX_UNAVAILABLE : Z := 69.

(** What the block does to the outside, in order. *)
Inductive event : Type :=
| AddSignalHandler (sig_name : string)
| PipelineStart
| PipelineStop
| LogInfo (msg : string)
| LogError (msg : string)
| LogException (e : exn).

(** The collaborators of the block: the interpreter, the event loop and
    the pipeline.  [signal_names] is the set of line 84 in the order in
    which the interpreter iterates over it, [start_result] the outcome of
    [fix_pipeline.start().result()], [stop_result] that of
    [fix_pipeline.stop().result()]. *)
Record Runtime : Type := mkRuntime {
  signal_names : list string;
  add_signal_handler : string → Result unit;
  start_result : Result unit;
  stop_result : Result unit;
}.

(** A block yields the events it caused and its outcome. *)
Definition T (A : Type) : Type := list event * Result A.

#[global] Instance T_ret : MRet T := λ A a, ([], Ok a).
#[global] Instance T_bind : MBind T := λ A B f m,
  match m with
  | (tr, Ok a) => let '(tr', r) := f a in ((tr ++ tr')%list, r)
  | (tr, Raise e) => (tr, Raise e)
  end.

Definition emit (ev : event) : T unit := ([ev], Ok tt).

Definition outcome {A : Type} (r : Result A) : T A := ([], r).

(** [sys.exit(code)]. *)
Definition sys_exit (code : Z) : T unit := ([], Raise (SystemExit code)).

(** [str(e)], as the log lines interpolate it. *)
Definition str_exn (e : exn) : string :=
  match e with
  | ImproperlyConfigured m | ValueError m | TypeError m | AttributeError m
  | ImportError m | TimeoutError m | CancelledError m | OtherException _ m => m
  | KeyError k => repr_str k
  | KeyboardInterrupt => ""
  | SystemExit c => ""
  end.

(** [try: body / except ...: handler]: the clause picked for an exception,
    if any, runs after the body. *)
Definition try_except {A : Type} (body : T A) (clauses : exn → option (T A))
    : T A :=
  match body with
  | (tr, Ok a) => (tr, Ok a)
  | (tr, Raise e) =>
      match clauses e with
      | Some (tr', r) => ((tr ++ tr')%list, r)
      | None => (tr, Raise e)
      end
  end.

(** [try: body / finally: cleanup]: the cleanup always runs; when it
    raises, its exception replaces the pending outcome. *)
Definition try_finally {A : Type} (body : T A) (cleanup : T unit) : T A :=
  let '(tr, r) := body in
  match cleanup with
  | (tr', Ok _) => ((tr ++ tr')%list, r)
  | (tr', Raise e) => ((tr ++ tr')%list, Raise e)
  end.

Definition cancelled_msg (e : exn) : string :=
  "Cancelled: connection terminated abnormally! (" +:+ str_exn e +:+ ")".

Section Main.

Variable rt : Runtime.

(** Lines 84-88: one handler per signal name. *)
Fixpoint add_signal_handlers (names : list string) : T unit :=
  match names with
  | [] => mret tt
  | sig_name :: names' =>
      emit (AddSignalHandler sig_name);;
      outcome (add_signal_handler rt sig_name);;
      add_signal_handlers names'
  end.

(** Lines 84-90. *)
Definition try_body : T unit :=
  add_signal_handlers (signal_names rt);;
  emit PipelineStart;;
  outcome (start_result rt).

(** Lines 92-110: the [except] clauses, in the order of the source. *)
Definition except_clauses (e : exn) : option (T unit) :=
  match e with
  | TimeoutError _ =>
      Some (emit (LogError (str_exn e));; sys_exit EX_UNAVAILABLE)
  | KeyboardInterrupt =>
      Some (emit (LogInfo "Received keyboard interrupt! Initiating shutdown...");;
            sys_exit EX_OK)
  | CancelledError _ =>
      Some (emit (LogError (cancelled_msg e));; sys_exit EX_UNAVAILABLE)
  | ImproperlyConfigured _ =>
      Some (emit (LogError (str_exn e));; sys_exit EX_OK)
  | _ =>
      if is_Exception e
      then Some (emit (LogException e);; sys_exit EX_UNAVAILABLE)
      else None
  end.

(** Lines 81-110: the [try] with its [except] clauses. *)
Definition guarded : T unit := try_except try_body except_clauses.

(** Lines 113-117: the body of [finally]. *)
Definition cleanup : T unit :=
  try_except
    (emit PipelineStop;; outcome (stop_result rt))
    (λ e, match e with
          | CancelledError _ =>
              Some (emit (LogError (cancelled_msg e));; sys_exit EX_UNAVAILABLE)
          | _ => None
          end).

(** Lines 81-117, which run once [fix_pipeline] has been built. *)
Definition main_block : T unit := try_finally guarded cleanup.

End Main.

(** How the interpreter ends: [SystemExit] sets the exit status, a script
    that runs to its end exits with 0, any other exception is reported
    with a traceback. *)
Inductive termination : Type :=
| Exited (status : Z)
| Traceback (e : exn).

Definition terminate (r : Result unit) : termination :=
  match r with
  | Ok _ => Exited 0
  | Raise (SystemExit code) => Exited code
  | Raise e => Traceback e
  end.

(** The exit of the process for a given behaviour of the collaborators,
    and the stop attempts made on the way. *)
Definition launch (rt : Runtime) : termination := terminate (main_block rt).2.

Definition is_stop (ev : event) : bool :=
  match ev with
  | PipelineStop => true
  | _ => false
  end.

Definition stop_attempts (tr : list event) : nat := length (filter is_stop tr).

Definition is_start (ev : event) : bool :=
  match ev with
  | PipelineStart => true
  | _ => false
  end.

Definition start_attempts (tr : list event) : nat :=
  length (filter is_start tr).

Definition is_log (ev : event) : bool :=
  match ev with
  | LogInfo _ | LogError _ | LogException _ => true
  | _ => false
  end.

Definition log_lines (tr : list event) : nat := length (filter is_log tr).

(** *** The signal handler *)

(** What a run of the handler does: the events of the launcher, and the
    [task.cancel()] of line 63. *)
Inductive activity : Type :=
| Act (ev : event)
| TaskCancel.

(** The pipeline as the handler meets it: [await_stop] is the outcome of
    lines 61-62 ([task = pipeline.stop()] and [await task]), [cancel_task]
    that of [task.cancel()]. *)
Record Shutdown : Type := mkShutdown {
  await_stop : Result unit;
  cancel_task : Result unit;
}.

Definition received_msg (sig_name_ : string) : string :=
  "Received signal " +:+ sig_name_ +:+ "! Initiating shutdown...".

(** Lines 60-63: the body of the [try] of [graceful_shutdown]. *)
Definition shutdown_body (sh : Shutdown) : list activity * Result unit :=
  match await_stop sh with
  | Ok _ => ([Act PipelineStop; TaskCancel], cancel_task sh)
  | Raise e => ([Act PipelineStop], Raise e)
  end.

(** Lines 57-67: the coroutine [graceful_shutdown], run to its end. *)
Definition graceful_shutdown (sh : Shutdown) (sig_name_ : string)
    : list activity * Result unit :=
  let '(tr, r) := shutdown_body sh in
  match r with
  | Raise (CancelledError m) =>
      (Act (LogInfo (received_msg sig_name_)) :: tr
         ++ [Act (LogError (cancelled_msg (CancelledError m)))],
       Raise (SystemExit EX_UNAVAILABLE))
  | _ => (Act (LogInfo (received_msg sig_name_)) :: tr, r)
  end.

Definition is_stop_activity (a : activity) : bool :=
  match a with
  | Act PipelineStop => true
  | _ => false
  end.

Definition activity_stops (tr : list activity) : nat :=
  length (filter is_stop_activity tr).

(** *** The script around the block *)

(** Lines 37-41: the default of [--connection]. *)
Definition connection_default (settings : Conf.Settings)
    : Result (option string) :=
  match Conf.default_connection_name settings with
  | Ok name => Ok (Some name)
  | Raise (ImproperlyConfigured _) => Ok None
  | Raise e => Raise e
  end.

(** The surroundings of a run.  The command line is taken as well formed:
    [arg_connection] is the value given with [--connection], if any,
    [arg_new_session] tells whether [-new_session] is present.
    [getLogger] and [basicConfig] are those of [logging]; [BasePipeline]
    is the constructor of the pipeline, which yields the collaborators of
    the block. *)
Record Process : Type := mkProcess {
  global_settings : module;
  import_module : string → Result module;
  environ : gmap string string;
  getLogger : pyval → Result string;
  basicConfig : pyval → Result unit;
  arg_connection : option string;
  arg_new_session : bool;
  BasePipeline : option string → bool → Result Runtime;
}.

(** [args.connection] after [parser.parse_args()] (lines 43-47, 76). *)
Definition args_connection (p : Process) (default : option string)
    : option string :=
  match arg_connection p with
  | Some name => Some name
  | None => default
  end.

(** Lines 29-79: from the import of [wtfix.conf], which builds
    [settings = Settings()], to the construction of the pipeline.  The
    other imports of lines 18-31 are taken to succeed. *)
Definition prelude (p : Process) : Result Runtime :=
  settings ← Conf.Settings_init (global_settings p) (import_module p)
               (environ p) None;
  let '(logger, w) :=
    Conf.logger (getLogger p)
      {| Conf.settings := settings; Conf.imported := [] |} in
  _ ← logger;
  default_connection_name ← connection_default (Conf.settings w);
  level ← getattr (Conf.attrs (Conf.settings w)) "LOGGING_LEVEL";
  _ ← basicConfig p level;
  BasePipeline p (args_connection p default_connection_name)
    (arg_new_session p).

(** The whole script: an exception before line 81 is caught by nothing. *)
Definition script (p : Process) : T unit :=
  match prelude p with
  | Ok rt => main_block rt
  | Raise e => ([], Raise e)
  end.

End RunClient.

(* ===================================================================== *)
(** ** Sample configurations *)
(* ===================================================================== *)

Module Samples.
Import Py Conf RunClient.

(** A resolved [Settings] object whose only setting is CONNECTIONS. *)
Definition settings_with (conns : list (string * pyval)) : Settings :=
  {| _logger := None;
     attrs := {["CONNECTIONS" := VDict conns]};
     _explicit_settings := {["CONNECTIONS"]};
     _active_protocol := VNone |}.

(** An import system that knows two protocol modules. *)
Definition protocols (name : string) : Result module :=
  if String.eqb name "proto.fix44" then Ok [("Spec", VClass "proto.fix44.Spec")]
  else if String.eqb name "proto.fix50" then Ok [("Spec", VClass "proto.fix50.Spec")]
  else Raise (ImportError name).

Definition conn_a : pyval :=
  VDict [("HOST", VStr "10.0.0.1"); ("PROTOCOL", VStr "proto.fix44.Spec");
         ("GROUP_TEMPLATES", VDict [("A", VList [VInt 1; VInt 2])])].

Definition conn_b : pyval :=
  VDict [("PROTOCOL", VStr "proto.fix50.Spec"); ("HOST", VStr "10.0.0.2")].

(** A connection without PROTOCOL and without GROUP_TEMPLATES. *)
Definition conn_plain : pyval :=
  VDict [("HOST", VStr "10.0.0.3"); ("PORT", VInt 9878)].

(** A connection whose PROTOCOL names a module that cannot be imported. *)
Definition conn_bad : pyval :=
  VDict [("HOST", VStr "10.0.0.4"); ("PROTOCOL", VStr "proto.fix99.Spec")].

Definition start_world (conns : list (string * pyval)) : World :=
  {| settings := settings_with conns; imported := [] |}.

(** A pipeline whose start and stop end as given, on a loop that accepts
    the signal handlers. *)
Definition runtime_of (start stop : Result unit) : Runtime :=
  {| signal_names := ["SIGINT"; "SIGTERM"];
     add_signal_handler := λ _, Ok tt;
     start_result := start;
     stop_result := stop |}.

(** Built-in defaults, an override module, and an import system that
    knows the override module and the protocol modules. *)
Definition sample_globals : module :=
  [("CONNECTIONS", VDict []); ("LOGGER", VStr "wtfix");
   ("PIPELINE_APPS", VInt 0); ("__name__", VStr "wtfix.conf.global_settings")].

Definition sample_overrides : module :=
  [("CONNECTIONS", VDict [("fix_a", conn_a)]); ("LOGGING_LEVEL", VInt 20);
   ("__name__", VStr "conf"); ("helper", VInt 1)].

Definition sample_import (name : string) : Result module :=
  if String.eqb name "conf" then Ok sample_overrides else protocols name.

(** A process around [sample_globals] and [sample_import]. *)
Definition sample_process (environ : gmap string string)
    (arg : option string) (pipeline : option string → bool → Result Runtime)
    : Process :=
  {| global_settings := sample_globals;
     import_module := sample_import;
     environ := environ;
     getLogger := λ _, Ok "wtfix";
     basicConfig := λ _, Ok tt;
     arg_connection := arg;
     arg_new_session := false;
     BasePipeline := pipeline |}.

(** A constructor that knows the connection "fix_a" only. *)
Definition sample_pipeline (connection_name : option string)
    (new_session : bool) : Result Runtime :=
  match connection_name with
  | Some name =>
      if String.eqb name "fix_a" then Ok (runtime_of (Ok tt) (Ok tt))
      else Raise (KeyError name)
  | None => Raise (ImproperlyConfigured "no connection")
  end.

End Samples.

(* ===================================================================== *)
(** ** The Python fragment on examples *)
(* ===================================================================== *)

Module PyFacts.
Import Py.

Example isupper_setting_names :
  isupper "PIPELINE_APPS" = true ∧ isupper "CONNECTIONS" = true
  ∧ isupper "__doc__" = false ∧ isupper "Path" = false
  ∧ isupper "_" = false ∧ isupper "FIX_44" = true.
Proof. by repeat split. Qed.

Example rsplit_dotted_reference :
  str_rsplit_dot "wtfix.protocol.fix44.Spec" = ["wtfix.protocol.fix44"; "Spec"]
  ∧ str_rsplit_dot "Spec" = ["Spec"]
  ∧ str_rsplit_dot ".Spec" = [""; "Spec"]
  ∧ str_rsplit_dot "pkg." = ["pkg"; ""].
Proof. by repeat split. Qed.

Example unpack_without_dot :
  unpack2 (str_rsplit_dot "Spec")
  = Raise (ValueError "not enough values to unpack (expected 2)").
Proof. reflexivity. Qed.

Lemma rsplit_last_dot_joins (s a b : string) :
  rsplit_last_dot s = Some (a, b) → s = a +:+ "." +:+ b.
Proof.
  revert a. induction s as [|c s IH]; intros a; [done|].
  simpl. destruct (rsplit_last_dot s) as [[a' b']|].
  - intros [= <- <-]. by rewrite (IH a' eq_refl).
  - destruct (Ascii.eqb_spec c ".") as [->|_]; [|done]. by intros [= <- <-].
Qed.

Lemma rsplit_last_dot_is_last (s a b : string) :
  rsplit_last_dot s = Some (a, b) → rsplit_last_dot b = None.
Proof.
  revert a. induction s as [|c s IH]; intros a; [done|].
  simpl. destruct (rsplit_last_dot s) as [[a' b']|] eqn:E.
  - intros [= <- <-]. by apply (IH a').
  - destruct (Ascii.eqb_spec c ".") as [->|_]; [|done]. by intros [= <- <-].
Qed.

End PyFacts.

(* ===================================================================== *)
(** ** Facts about the settings module *)
(* ===================================================================== *)

Module ConfFacts.
Import Py Conf Samples.

(** *** Loading *)

Lemma dict_get_bound (m : list (string * pyval)) (name : string) :
  name ∈ m.*1 → ∃ v, dict_get m name = Some v.
Proof.
  induction m as [|[k v] m IH]; simpl.
  - intros H. inversion H.
  - intros H. destruct (String.eqb_spec k name) as [->|Hne]; [eauto|].
    apply IH. inversion H; subst; [congruence|done].
Qed.

(** Every name [dir] lists can be read back, so copying the defaults
    cannot fail. *)
Lemma load_defaults_total (gs : module) (l : list string)
    (ns : gmap string pyval) :
  l ⊆ dir gs →
  ∃ ns', for_each
           (λ (ns : gmap string pyval) setting,
              if isupper setting then
                v ← module_getattr gs setting; mret (<[setting := v]> ns)
              else Ok ns) ns l = Ok ns'.
Proof.
  revert ns. induction l as [|x l IH]; intros ns Hl; simpl; [eauto|].
  assert (Hx : x ∈ dir gs) by (apply Hl; left).
  assert (Hl' : l ⊆ dir gs) by (intros y Hy; apply Hl; by right).
  destruct (isupper x); [|by apply IH].
  destruct (dict_get_bound gs x Hx) as [v Hv].
  unfold module_getattr. rewrite Hv. simpl. by apply IH.
Qed.

Lemma load_overrides_rejects (mod_ : module) (v : pyval) (l : list string)
    (st : gmap string pyval * gset string) :
  dict_get mod_ "PIPELINE_APPS" = Some v →
  isinstance_list_tuple v = false →
  l ⊆ dir mod_ →
  "PIPELINE_APPS" ∈ l →
  for_each
    (λ '((ns, explicit) : gmap string pyval * gset string) setting,
       if isupper setting then
         setting_value ← module_getattr mod_ setting;
         if String.eqb setting "PIPELINE_APPS"
            && negb (isinstance_list_tuple setting_value)
         then Raise (ImproperlyConfigured (must_be_list_msg setting))
         else Ok (<[setting := setting_value]> ns, explicit ∪ {[setting]})
       else Ok (ns, explicit)) st l
  = Raise (ImproperlyConfigured (must_be_list_msg "PIPELINE_APPS")).
Proof.
  intros Hv Hty. revert st.
  induction l as [|x l IH]; intros [ns ex] Hl Hin; [inversion Hin|].
  assert (Hx : x ∈ dir mod_) by (apply Hl; left).
  assert (Hl' : l ⊆ dir mod_) by (intros y Hy; apply Hl; by right).
  simpl. destruct (String.eqb_spec x "PIPELINE_APPS") as [->|Hne].
  - change (isupper "PIPELINE_APPS") with true. cbv iota.
    unfold module_getattr. rewrite Hv. simpl. by rewrite Hty.
  - assert (Hin' : "PIPELINE_APPS" ∈ l)
      by (inversion Hin; subst; [congruence|done]).
    destruct (isupper x); [|by apply IH].
    destruct (dict_get_bound mod_ x Hx) as [w Hw].
    unfold module_getattr. rewrite Hw. simpl. by apply IH.
Qed.

Lemma dict_get_Some_keys (m : list (string * pyval)) name v :
  dict_get m name = Some v → name ∈ m.*1.
Proof.
  induction m as [|[k w] m IH]; simpl; [done|].
  destruct (String.eqb_spec k name) as [->|Hne]; intros H.
  - left.
  - right. by apply IH.
Qed.

Lemma mentions_not_configured :
  mentions not_configured_msg ENVIRONMENT_VARIABLE.
Proof.
  exists "Settings are not configured. You must either define the environment variable ",
         " or call settings.configure() before accessing settings.".
  reflexivity.
Qed.

(** C2.  Without a settings-module argument and with WTFIX_SETTINGS_MODULE
    unset or empty, [Settings.__init__] raises ImproperlyConfigured with a
    message that contains the name of the variable; with an argument, or
    with the variable set to a non-empty name, the check passes and the
    constructor goes on to load that module. *)
Theorem Settings_init_needs_module_name
    (gs : module) (imp : string → Result module)
    (environ : gmap string string) :
  ((environ !! ENVIRONMENT_VARIABLE = None
    ∨ environ !! ENVIRONMENT_VARIABLE = Some "") →
   ∃ msg, Settings_init gs imp environ None = Raise (ImproperlyConfigured msg)
          ∧ mentions msg ENVIRONMENT_VARIABLE)
  ∧ (∀ m, settings_module_name environ (Some m) = Ok m
          ∧ Settings_init gs imp environ (Some m) = Settings_load gs imp m)
  ∧ (∀ m, environ !! ENVIRONMENT_VARIABLE = Some m → m ≠ "" →
          settings_module_name environ None = Ok m
          ∧ Settings_init gs imp environ None = Settings_load gs imp m).
Proof.
  split; [|split].
  - intros Henv. exists not_configured_msg.
    split; [|apply mentions_not_configured].
    unfold Settings_init, settings_module_name.
    by destruct Henv as [-> | ->].
  - intros m. by split.
  - intros m Henv Hne.
    unfold Settings_init, settings_module_name. rewrite Henv.
    by destruct m.
Qed.

Lemma Settings_init_needs_module_name_witness :
  (∃ msg, Settings_init [] (λ _, Raise (ImportError "")) ∅ None
          = Raise (ImproperlyConfigured msg)
          ∧ mentions msg ENVIRONMENT_VARIABLE)
  ∧ Settings_init [] (λ _, Raise (ImportError ""))
      {[ENVIRONMENT_VARIABLE := "conf"]} None
    = Settings_load [] (λ _, Raise (ImportError "")) "conf".
Proof.
  split.
  - apply (Settings_init_needs_module_name [] (λ _, Raise (ImportError "")) ∅).
    left. reflexivity.
  - apply (Settings_init_needs_module_name [] (λ _, Raise (ImportError ""))
             {[ENVIRONMENT_VARIABLE := "conf"]}).
    + reflexivity.
    + discriminate.
Defined.

(** C7.  When the settings module binds PIPELINE_APPS to a value that is
    neither a list nor a tuple, [Settings.__init__] itself raises
    ImproperlyConfigured, with a message that names the setting: no
    [Settings] object comes into being. *)
Theorem Settings_init_checks_PIPELINE_APPS
    (gs : module) (imp : string → Result module)
    (environ : gmap string string) (settings_module : option string)
    (name : string) (mod_ : module) (v : pyval) :
  settings_module_name environ settings_module = Ok name →
  imp name = Ok mod_ →
  dict_get mod_ "PIPELINE_APPS" = Some v →
  isinstance_list_tuple v = false →
  ∃ msg, Settings_init gs imp environ settings_module
         = Raise (ImproperlyConfigured msg)
         ∧ mentions msg "PIPELINE_APPS".
Proof.
  intros Hname Himp Hv Hty.
  exists (must_be_list_msg "PIPELINE_APPS"). split.
  - unfold Settings_init. rewrite Hname. simpl.
    unfold Settings_load.
    destruct (load_defaults_total gs (dir gs) ∅) as [ns Hns]; [done|].
    unfold load_defaults. rewrite Hns. simpl. rewrite Himp. simpl.
    unfold load_overrides.
    rewrite (load_overrides_rejects mod_ v); try done.
    by eapply dict_get_Some_keys.
  - by exists "The ", " setting must be a list or a tuple. ".
Qed.

Lemma Settings_init_checks_PIPELINE_APPS_witness :
  ∃ msg,
    Settings_init [("LOGGER", VStr "wtfix")]
      (λ _, Ok [("CONNECTIONS", VDict []); ("PIPELINE_APPS", VStr "app")])
      ∅ (Some "conf")
    = Raise (ImproperlyConfigured msg)
    ∧ mentions msg "PIPELINE_APPS".
Proof.
  apply (Settings_init_checks_PIPELINE_APPS _ _ ∅ (Some "conf") "conf"
           [("CONNECTIONS", VDict []); ("PIPELINE_APPS", VStr "app")]
           (VStr "app")); reflexivity.
Defined.

(** *** Default connection *)

(** C3.  With CONNECTIONS a dict [conns]: [has_safe_defaults] is true
    exactly when [conns] has one entry; with one entry,
    [default_connection_name] returns its key; with two or more it raises
    ImproperlyConfigured, and the message says that more than one session
    has been configured. *)
Theorem default_connection_name_spec
    (self : Settings) (conns : list (string * pyval)) :
  attrs self !! "CONNECTIONS" = Some (VDict conns) →
  (∃ b, has_safe_defaults self = Ok b ∧ (b = true ↔ length conns = 1))
  ∧ (∀ name cfg, conns = [(name, cfg)] →
       default_connection_name self = Ok name)
  ∧ ((2 ≤ length conns)%nat →
       ∃ msg, default_connection_name self = Raise (ImproperlyConfigured msg)
              ∧ mentions msg "more than one session has been configured").
Proof.
  intros Hc.
  assert (HC : CONNECTIONS self = Ok conns) by (unfold CONNECTIONS; by rewrite Hc).
  split; [|split].
  - exists (length conns =? 1)%nat. split.
    + unfold has_safe_defaults. by rewrite HC.
    + apply Nat.eqb_eq.
  - intros name cfg ->.
    unfold default_connection_name, has_safe_defaults. by rewrite HC.
  - intros Hlen. exists ambiguous_msg. split.
    + unfold default_connection_name, has_safe_defaults. rewrite HC. simpl.
      destruct (Nat.eqb_spec (length conns) 1) as [Heq|_]; [lia|done].
    + by exists "Cannot fall back to using session defaults as ",
        " using the 'SESSIONS' parameter. You MUST specify which sessions' configuration settings to use.".
Qed.

Lemma default_connection_name_spec_witness :
  default_connection_name
    {| _logger := None;
       attrs := {["CONNECTIONS" := VDict [("fix_a", VDict [])]]};
       _explicit_settings := ∅; _active_protocol := VNone |}
  = Ok "fix_a"
  ∧ ∃ msg,
      default_connection_name
        {| _logger := None;
           attrs := {["CONNECTIONS" :=
                        VDict [("fix_a", VDict []); ("fix_b", VDict [])]]};
           _explicit_settings := ∅; _active_protocol := VNone |}
      = Raise (ImproperlyConfigured msg)
      ∧ mentions msg "more than one session has been configured".
Proof.
  split.
  - eapply (default_connection_name_spec _ [("fix_a", VDict [])]);
      reflexivity.
  - eapply (default_connection_name_spec _
              [("fix_a", VDict []); ("fix_b", VDict [])]).
    + reflexivity.
    + simpl. lia.
Defined.

(** *** Messages *)

Lemma append_assoc (a b c : string) : (a +:+ b) +:+ c = a +:+ b +:+ c.
Proof.
  induction a as [|x a IH]; [done|].
  change (String x ((a +:+ b) +:+ c) = String x (a +:+ b +:+ c)).
  by rewrite IH.
Qed.

Lemma append_nil_r (a : string) : a +:+ "" = a.
Proof.
  induction a as [|x a IH]; [done|].
  change (String x (a +:+ "") = String x a). by rewrite IH.
Qed.

Lemma mentions_refl (x : string) : mentions x x.
Proof. exists "", "". change ("" +:+ x +:+ "") with (x +:+ ""). by rewrite append_nil_r. Qed.

Lemma mentions_trans (a b x : string) :
  mentions b x → mentions a b → mentions a x.
Proof.
  intros (p' & q' & ->) (p & q & ->).
  exists (p +:+ p'), (q' +:+ q). by rewrite !append_assoc.
Qed.

Lemma mentions_inside (p q a : string) : mentions (p +:+ a +:+ q) a.
Proof. by exists p, q. Qed.

Lemma mentions_join (sep : string) (l : list string) (x : string) :
  x ∈ l → mentions (join sep l) x.
Proof.
  induction l as [|y l IH]; intros Hin; [inversion Hin|].
  destruct l as [|z l].
  - apply list_elem_of_singleton in Hin as ->. apply mentions_refl.
  - change (join sep (y :: z :: l)) with (y +:+ sep +:+ join sep (z :: l)).
    inversion Hin as [|? ? ? Hin']; subst.
    + by exists "", (sep +:+ join sep (z :: l)).
    + eapply mentions_trans; [apply (IH Hin')|].
      exists (y +:+ sep), "". by rewrite append_assoc, append_nil_r.
Qed.

Lemma mentions_repr_set (ids : gset string) (x : string) :
  x ∈ ids → mentions (repr_set ids) x.
Proof.
  intros Hx. apply elem_of_elements in Hx. unfold repr_set.
  destruct (elements ids) as [|y l] eqn:E; [inversion Hx|].
  eapply mentions_trans; [|apply mentions_inside].
  eapply mentions_trans; [apply (mentions_inside "'" "'" x)|].
  apply mentions_join. apply (list_elem_of_fmap_2 repr_str), Hx.
Qed.

(** *** Group templates *)

Lemma filter_keys (ids : gset string) (d : list (string * pyval)) :
  dict_keys (filter (λ it, it.1 ∈ ids) d) = filter (λ k, k ∈ ids) (dict_keys d).
Proof.
  unfold dict_keys. induction d as [|[k v] d IH]; [done|].
  rewrite (filter_cons _ (k, v)), fmap_cons, (filter_cons _ k).
  change ((k, v).1) with k.
  destruct (decide (k ∈ ids)); [rewrite fmap_cons|]; by rewrite IH.
Qed.

Lemma dict_get_filter (ids : gset string) (d : list (string * pyval)) k :
  k ∈ ids → dict_get (filter (λ it, it.1 ∈ ids) d) k = dict_get d k.
Proof.
  intros Hk. induction d as [|[k0 v] d IH]; [done|].
  rewrite filter_cons. simpl. destruct (decide (k0 ∈ ids)) as [Hin|Hout]; simpl.
  - by rewrite IH.
  - destruct (String.eqb_spec k0 k) as [->|_]; [done|apply IH].
Qed.

(** The test [len(templates) != len(identifiers)] of line 142 detects
    exactly the requests that name an undefined identifier. *)
Lemma found_all_iff (ids : gset string) (d : list (string * pyval)) :
  dict_wf d →
  length (filter (λ it, it.1 ∈ ids) d) = size ids
  ↔ ids ⊆ list_to_set (dict_keys d).
Proof.
  intros Hwf.
  set (found := filter (λ it, it.1 ∈ ids) d).
  assert (Hnd : NoDup (dict_keys found)).
  { unfold found. rewrite filter_keys. by apply NoDup_filter. }
  assert (Hlen : length found = size (list_to_set (C := gset string) (dict_keys found))).
  { rewrite size_list_to_set by done. unfold dict_keys. by rewrite length_fmap. }
  assert (Hsub : list_to_set (C := gset string) (dict_keys found) ⊆ ids).
  { intros k Hk. apply elem_of_list_to_set in Hk. unfold found in Hk.
    rewrite filter_keys in Hk. by apply list_elem_of_filter in Hk as [? _]. }
  rewrite Hlen. split.
  - intros Hsz k Hk.
    assert (Heq : list_to_set (C := gset string) (dict_keys found) = ids)
      by (apply set_subseteq_size_eq; [done|lia]).
    rewrite <- Heq in Hk. apply elem_of_list_to_set in Hk.
    unfold found in Hk. rewrite filter_keys in Hk.
    apply list_elem_of_filter in Hk as [_ Hk]. by apply elem_of_list_to_set.
  - intros Hall. f_equal. apply set_eq. intros k. split; [apply Hsub|].
    intros Hk. apply elem_of_list_to_set. unfold found. rewrite filter_keys.
    apply list_elem_of_filter. split; [done|].
    apply (elem_of_list_to_set (C := gset string)). by apply Hall.
Qed.

(** C6, as the code has it.  For a configured connection that defines
    GROUP_TEMPLATES as a dict: a request for identifiers that are all
    defined returns the dict of exactly those identifiers, each with its
    template; a request that names an undefined identifier raises
    ImproperlyConfigured with a message that contains every missing
    identifier; a request without identifiers returns the whole dict. *)
Theorem get_group_templates_spec
    (self : Settings) (conns : list (string * pyval)) (name : string)
    (cfg tmpl : list (string * pyval)) :
  attrs self !! "CONNECTIONS" = Some (VDict conns) →
  dict_get conns name = Some (VDict cfg) →
  dict_get cfg "GROUP_TEMPLATES" = Some (VDict tmpl) →
  dict_wf tmpl →
  (∀ ids : gset string, ids ⊆ list_to_set (dict_keys tmpl) →
     ∃ found,
       get_group_templates self (Some name) (Some ids) = Ok (VDict found)
       ∧ dict_wf found
       ∧ (∀ k, k ∈ dict_keys found ↔ k ∈ ids)
       ∧ (∀ k, k ∈ ids → dict_get found k = dict_get tmpl k))
  ∧ (∀ ids : gset string, ids ⊈ list_to_set (dict_keys tmpl) →
     ∃ msg,
       get_group_templates self (Some name) (Some ids)
       = Raise (ImproperlyConfigured msg)
       ∧ (∀ k, k ∈ ids → k ∉ dict_keys tmpl → mentions msg k))
  ∧ get_group_templates self (Some name) None = Ok (VDict tmpl).
Proof.
  intros Hc Hname Hcfg Hwf.
  assert (HC : CONNECTIONS self = Ok conns)
    by (unfold CONNECTIONS; by rewrite Hc).
  assert (Hstart : ∀ ids,
    get_group_templates self (Some name) ids =
    match ids with
    | None => Ok (VDict tmpl)
    | Some ids =>
        let templates := filter (λ it, it.1 ∈ ids) tmpl in
        if negb (length templates =? size ids)%nat then
          Raise (ImproperlyConfigured
                   (no_template_msg (ids ∖ list_to_set (dict_keys templates))))
        else Ok (VDict templates)
    end).
  { intros ids. unfold get_group_templates. simpl. rewrite HC. simpl.
    unfold dict_getitem at 1. rewrite Hname. simpl.
    unfold dict_getitem. rewrite Hcfg. simpl. by destruct ids. }
  split; [|split].
  - intros ids Hall. exists (filter (λ it, it.1 ∈ ids) tmpl).
    rewrite Hstart. cbv zeta.
    apply (found_all_iff ids tmpl Hwf) in Hall as Hlen.
    rewrite Hlen, Nat.eqb_refl. simpl. split; [done|]. split; [|split].
    + unfold dict_wf. rewrite filter_keys. by apply NoDup_filter.
    + intros k. rewrite filter_keys, list_elem_of_filter. split; [by intros []|].
      intros Hk. split; [done|].
      apply (elem_of_list_to_set (C := gset string)). by apply Hall.
    + intros k Hk. by apply dict_get_filter.
  - intros ids Hmiss.
    exists (no_template_msg
              (ids ∖ list_to_set (dict_keys (filter (λ it, it.1 ∈ ids) tmpl)))).
    rewrite Hstart. cbv zeta.
    destruct (Nat.eqb_spec (length (filter (λ it, it.1 ∈ ids) tmpl)) (size ids))
      as [Hlen|_].
    { by apply (found_all_iff ids tmpl Hwf) in Hlen. }
    simpl. split; [done|]. intros k Hk Hout.
    eapply mentions_trans; [|apply mentions_inside].
    apply mentions_repr_set. apply elem_of_difference. split; [done|].
    intros Hin. apply elem_of_list_to_set in Hin.
    rewrite filter_keys in Hin. by apply list_elem_of_filter in Hin as [_ ?].
  - by rewrite Hstart.
Qed.

Lemma get_group_templates_spec_witness :
  (∃ found,
     get_group_templates (settings_with [("fix_a", conn_a)]) (Some "fix_a")
       (Some {["A"]}) = Ok (VDict found)
     ∧ dict_wf found
     ∧ (∀ k, k ∈ dict_keys found ↔ k ∈ ({["A"]} : gset string))
     ∧ (∀ k, k ∈ ({["A"]} : gset string) →
          dict_get found k = dict_get [("A", VList [VInt 1; VInt 2])] k))
  ∧ (∃ msg,
       get_group_templates (settings_with [("fix_a", conn_a)]) (Some "fix_a")
         (Some {["A"; "B"]}) = Raise (ImproperlyConfigured msg)
       ∧ mentions msg "B").
Proof.
  assert (Hwf : dict_wf [("A", VList [VInt 1; VInt 2])]).
  { unfold dict_wf. simpl. apply NoDup_singleton. }
  pose proof (get_group_templates_spec (settings_with [("fix_a", conn_a)])
                [("fix_a", conn_a)] "fix_a" _ [("A", VList [VInt 1; VInt 2])]
                eq_refl eq_refl eq_refl Hwf) as (Hall & Hmiss & _).
  assert (HB : "B" ∈ ({["A"; "B"]} : gset string))
    by (apply elem_of_union; right; by apply elem_of_singleton).
  assert (HnB : "B" ∉ dict_keys [("A", VList [VInt 1; VInt 2])]).
  { intros Hin. by apply list_elem_of_singleton in Hin. }
  split.
  - apply Hall. intros k Hk. apply elem_of_singleton in Hk as ->.
    apply elem_of_list_to_set. left.
  - destruct (Hmiss {["A"; "B"]}) as (msg & Hmsg & Hnames).
    + intros Hsub. apply HnB.
      apply (elem_of_list_to_set (C := gset string)). by apply Hsub.
    + exists msg. split; [done|]. by apply Hnames.
Defined.

(** C6 as stated fails for a connection that has no GROUP_TEMPLATES entry:
    the lookup of line 130 raises KeyError before any identifier is
    looked at, whether identifiers were requested or not. *)
Lemma get_group_templates_without_templates :
  get_group_templates (settings_with [("fix_b", conn_b)]) (Some "fix_b")
    (Some {["A"]}) = Raise (KeyError "GROUP_TEMPLATES")
  ∧ get_group_templates (settings_with [("fix_b", conn_b)]) (Some "fix_b")
      None = Raise (KeyError "GROUP_TEMPLATES").
Proof. split; reflexivity. Qed.

(** *** Projection: the frame *)

Lemma frame_refl (w : World) : frame w w.
Proof. by repeat split. Qed.

Lemma frame_trans (w1 w2 w3 : World) : frame w1 w2 → frame w2 w3 → frame w1 w3.
Proof.
  intros (H1 & H2 & H3) (K1 & K2 & K3).
  repeat split; etrans; eauto.
Qed.

Lemma framed_ret {A : Type} (a : A) : framed (mret a : M A).
Proof. intros w. apply frame_refl. Qed.

Lemma framed_lift {A : Type} (r : Result A) : framed (lift r).
Proof. intros w. apply frame_refl. Qed.

Lemma framed_the_settings : framed the_settings.
Proof. intros w. apply frame_refl. Qed.

Lemma framed_set_active_protocol (c : pyval) : framed (set_active_protocol c).
Proof. intros w. by repeat split. Qed.

Lemma framed_import (imp : string → Result module) (name : string) :
  framed (import imp name).
Proof. intros w. by repeat split. Qed.

Lemma framed_bind {A B : Type} (m : M A) (k : A → M B) :
  framed m → (∀ a, framed (k a)) → framed (m ≫= k).
Proof.
  intros Hm Hk w. unfold mbind, M_bind. specialize (Hm w).
  destruct (m w) as [[a|e] w1]; simpl in *; [|done].
  eapply frame_trans; [exact Hm|apply Hk].
Qed.

Lemma framed_for_in {A B : Type} (body : B → A → M B) (l : list A) :
  (∀ acc x, framed (body acc x)) → ∀ acc, framed (for_in body acc l).
Proof.
  intros Hbody. induction l as [|x l IH]; intros acc; simpl.
  - apply framed_ret.
  - apply framed_bind; [apply Hbody|intros a; apply IH].
Qed.

Create HintDb framed.
#[local] Hint Resolve framed_ret framed_lift framed_the_settings
  framed_set_active_protocol framed_import : framed.

Ltac framed_bind_with tac :=
  apply framed_bind; [eauto with framed|intros ?; tac].

Section ProjectionFacts.

Variable imp : string → Result module.

Lemma framed_load_class (v : pyval) : framed (load_class imp v).
Proof.
  unfold load_class. apply framed_bind; [eauto with framed|intros parts].
  apply framed_bind; [eauto with framed|intros [mod_name class_name]].
  apply framed_bind; eauto with framed.
Qed.

Lemma framed_copy_setting this item : framed (copy_setting imp this item).
Proof.
  destruct item as [setting v]. unfold copy_setting.
  apply framed_bind; [|eauto with framed].
  destruct (String.eqb setting "PROTOCOL"); [|eauto with framed].
  apply framed_bind; [apply framed_load_class|eauto with framed].
Qed.

Lemma framed_populate (name : string) :
  framed (SessionSettings_populate imp name).
Proof.
  unfold SessionSettings_populate.
  repeat (apply framed_bind; [eauto with framed|intros ?]).
  apply framed_for_in. intros. apply framed_copy_setting.
Qed.

Lemma framed_default_connection : framed (default_connection imp).
Proof.
  unfold default_connection.
  framed_bind_with ltac:(framed_bind_with ltac:(apply framed_populate)).
Qed.

Lemma framed_init (connection_name : option string) :
  framed (SessionSettings_init imp connection_name).
Proof.
  unfold SessionSettings_init.
  apply framed_bind; [|intros ?; apply framed_populate].
  destruct connection_name; [eauto with framed|].
  apply framed_bind; [apply framed_default_connection|eauto with framed].
Qed.

(** *** Projection: what each step computes *)

Lemma load_class_run (v : pyval) (w : World) :
  (load_class imp v w).1 = resolve imp v
  ∧ settings (load_class imp v w).2 = settings w.
Proof.
  unfold load_class, resolve, mbind, M_bind, Result_bind, lift.
  destruct (rsplit_dot v) as [parts|e]; [|done].
  destruct (unpack2 parts) as [[mod_name class_name]|e]; [|done].
  unfold import. destruct (imp mod_name) as [md|e]; [|done].
  by destruct (module_getattr md class_name).
Qed.

Lemma copy_setting_other (this : SessionSettings) (k : string) (v : pyval) w :
  k ≠ "PROTOCOL" →
  copy_setting imp this (k, v) w
  = (Ok {| session_attrs := <[k := v]> (session_attrs this) |}, w).
Proof.
  intros Hk. unfold copy_setting.
  destruct (String.eqb_spec k "PROTOCOL"); done.
Qed.

Lemma copy_setting_protocol_ok (this : SessionSettings) (v c : pyval) w :
  resolve imp v = Ok c →
  ∃ w', copy_setting imp this ("PROTOCOL", v) w
        = (Ok {| session_attrs := <["PROTOCOL" := v]> (session_attrs this) |}, w')
        ∧ settings w' = with_protocol c (settings w).
Proof.
  intros Hres. destruct (load_class_run v w) as [H1 H2].
  unfold copy_setting, mbind, M_bind. simpl.
  destruct (load_class imp v w) as [r w1]. simpl in *. subst r.
  rewrite Hres. simpl. eexists. split; [reflexivity|]. simpl. by rewrite H2.
Qed.

Lemma copy_setting_protocol_fail (this : SessionSettings) (v : pyval) e w :
  resolve imp v = Raise e →
  ∃ w', copy_setting imp this ("PROTOCOL", v) w = (Raise e, w')
        ∧ settings w' = settings w.
Proof.
  intros Hres. destruct (load_class_run v w) as [H1 H2].
  unfold copy_setting, mbind, M_bind. simpl.
  destruct (load_class imp v w) as [r w1]. simpl in *. subst r.
  rewrite Hres. by eexists.
Qed.

Lemma dict_wf_cons k v (d : list (string * pyval)) :
  dict_wf ((k, v) :: d) → (k ∉ dict_keys d) ∧ dict_wf d.
Proof. unfold dict_wf, dict_keys. rewrite fmap_cons. apply NoDup_cons. Qed.

Lemma dict_get_None_keys (d : list (string * pyval)) k :
  k ∉ dict_keys d → dict_get d k = None.
Proof.
  intros Hk. destruct (dict_get d k) as [v|] eqn:E; [|done].
  by apply dict_get_Some_keys in E.
Qed.

(** Without a PROTOCOL entry the loop only writes the view. *)
Lemma for_in_without_protocol (items : list (string * pyval)) this w :
  "PROTOCOL" ∉ dict_keys items →
  for_in (copy_setting imp) this items w = (Ok (written this items), w).
Proof.
  revert this. induction items as [|[k v] items IH]; intros this Hno; [done|].
  unfold dict_keys in Hno. rewrite fmap_cons in Hno.
  apply not_elem_of_cons in Hno as [Hk Hno].
  cbn [for_in]. unfold mbind, M_bind at 1.
  rewrite copy_setting_other by done. by apply IH.
Qed.

Lemma for_in_protocol_ok (items : list (string * pyval)) this (v c : pyval) w :
  dict_wf items →
  dict_get items "PROTOCOL" = Some v →
  resolve imp v = Ok c →
  ∃ w', for_in (copy_setting imp) this items w = (Ok (written this items), w')
        ∧ settings w' = with_protocol c (settings w).
Proof.
  revert this. induction items as [|[k x] items IH]; intros this Hwf Hget Hres;
    [done|].
  apply dict_wf_cons in Hwf as [Hk Hwf]. simpl in Hget.
  cbn [for_in]. unfold mbind, M_bind at 1.
  destruct (String.eqb_spec k "PROTOCOL") as [->|Hne].
  - injection Hget as ->.
    destruct (copy_setting_protocol_ok this v c w Hres) as (w1 & -> & Hw1).
    rewrite for_in_without_protocol by done. eauto.
  - rewrite copy_setting_other by done. by apply IH.
Qed.

Lemma for_in_protocol_fail (items : list (string * pyval)) this (v : pyval) e w :
  dict_wf items →
  dict_get items "PROTOCOL" = Some v →
  resolve imp v = Raise e →
  ∃ w', for_in (copy_setting imp) this items w = (Raise e, w')
        ∧ settings w' = settings w.
Proof.
  revert this. induction items as [|[k x] items IH]; intros this Hwf Hget Hres;
    [done|].
  apply dict_wf_cons in Hwf as [Hk Hwf]. simpl in Hget.
  cbn [for_in]. unfold mbind, M_bind at 1.
  destruct (String.eqb_spec k "PROTOCOL") as [->|Hne].
  - injection Hget as ->.
    by destruct (copy_setting_protocol_fail this v e w Hres) as (w1 & -> & Hw1);
      eauto.
  - rewrite copy_setting_other by done. by apply IH.
Qed.

Lemma written_lookup (items : list (string * pyval)) this k :
  dict_wf items →
  session_attrs (written this items) !! k
  = match dict_get items k with
    | Some v => Some v
    | None => session_attrs this !! k
    end.
Proof.
  revert this. induction items as [|[k0 v0] items IH]; intros this Hwf; [done|].
  apply dict_wf_cons in Hwf as [Hk Hwf].
  unfold written in *. simpl. rewrite IH by done. simpl.
  destruct (String.eqb_spec k0 k) as [->|Hne].
  - rewrite dict_get_None_keys by done. apply lookup_insert_eq.
  - destruct (dict_get items k); [done|]. by apply lookup_insert_ne.
Qed.

Lemma populate_run (w : World) conns name cfg :
  attrs (settings w) !! "CONNECTIONS" = Some (VDict conns) →
  dict_get conns name = Some (VDict cfg) →
  SessionSettings_populate imp name w
  = for_in (copy_setting imp) {| session_attrs := ∅ |} cfg w.
Proof.
  intros Hc Hname.
  unfold SessionSettings_populate, mbind, M_bind, the_settings, lift,
    CONNECTIONS, dict_getitem.
  by rewrite Hc, Hname.
Qed.

Lemma init_named (name : string) (w : World) :
  SessionSettings_init imp (Some name) w = SessionSettings_populate imp name w.
Proof.
  unfold SessionSettings_init, mbind, M_bind, mret, M_ret.
  by destruct (SessionSettings_populate imp name w) as [[?|?] ?].
Qed.

Lemma resolve_cases (p : string) :
  match rsplit_last_dot p with
  | None => ∃ msg, resolve imp (VStr p) = Raise (ValueError msg)
  | Some (mod_name, class_name) =>
      match imp mod_name with
      | Raise e => resolve imp (VStr p) = Raise e
      | Ok md =>
          match dict_get md class_name with
          | None => resolve imp (VStr p) = Raise (AttributeError class_name)
          | Some c => resolve imp (VStr p) = Ok c
          end
      end
  end.
Proof.
  unfold resolve, rsplit_dot, str_rsplit_dot, mbind, Result_bind.
  destruct (rsplit_last_dot p) as [[mod_name class_name]|]; simpl; [|by eexists].
  destruct (imp mod_name) as [md|e]; [|done].
  unfold module_getattr. by destruct (dict_get md class_name).
Qed.

End ProjectionFacts.

(** *** Projection: the claims *)

(** [dict_wf] of a concrete dict, by evaluation. *)
Ltac dict_wf_decide :=
  unfold dict_wf; apply (bool_decide_unpack _); vm_compute; exact I.

(** C4.  Let connections X and Y define PROTOCOL references that resolve
    to the classes [cX] and [cY].  Building the [SessionSettings] of X and
    then of Y succeeds and leaves [cY] in the cache of [settings] (so not
    [cX], when the two differ); reading [active_protocol] afterwards
    returns [cY] and changes nothing: no module is imported again. *)
Theorem projection_last_writer_wins
    (imp : string → Result module) (w : World)
    (conns : list (string * pyval)) (nX nY : string)
    (cfgX cfgY : list (string * pyval)) (pX pY : string) (cX cY : pyval) :
  attrs (settings w) !! "CONNECTIONS" = Some (VDict conns) →
  dict_get conns nX = Some (VDict cfgX) → dict_wf cfgX →
  dict_get conns nY = Some (VDict cfgY) → dict_wf cfgY →
  dict_get cfgX "PROTOCOL" = Some (VStr pX) → resolve imp (VStr pX) = Ok cX →
  dict_get cfgY "PROTOCOL" = Some (VStr pY) → resolve imp (VStr pY) = Ok cY →
  cY ≠ VNone →
  ∃ vX vY w1 w2,
    SessionSettings_init imp (Some nX) w = (Ok vX, w1)
    ∧ SessionSettings_init imp (Some nY) w1 = (Ok vY, w2)
    ∧ _active_protocol (settings w2) = cY
    ∧ (cX ≠ cY → _active_protocol (settings w2) ≠ cX)
    ∧ active_protocol imp w2 = (Ok cY, w2).
Proof.
  intros Hc HX HwfX HY HwfY HpX HrX HpY HrY HcY.
  destruct (for_in_protocol_ok imp cfgX {| session_attrs := ∅ |} _ cX w
              HwfX HpX HrX) as (w1 & Hrun1 & Hw1).
  assert (Hc1 : attrs (settings w1) !! "CONNECTIONS" = Some (VDict conns))
    by (by rewrite Hw1).
  destruct (for_in_protocol_ok imp cfgY {| session_attrs := ∅ |} _ cY w1
              HwfY HpY HrY) as (w2 & Hrun2 & Hw2).
  assert (Hcache : _active_protocol (settings w2) = cY) by (by rewrite Hw2).
  exists (written {| session_attrs := ∅ |} cfgX),
         (written {| session_attrs := ∅ |} cfgY), w1, w2.
  split; [|split; [|split; [|split]]].
  - by rewrite init_named, (populate_run imp w conns nX cfgX).
  - by rewrite init_named, (populate_run imp w1 conns nY cfgY).
  - done.
  - intros Hne. by rewrite Hcache.
  - unfold active_protocol, mbind, M_bind at 1, the_settings.
    rewrite Hcache. by destruct cY.
Qed.

Lemma projection_last_writer_wins_witness :
  ∃ vX vY w1 w2,
    SessionSettings_init protocols (Some "fix_a")
      (start_world [("fix_a", conn_a); ("fix_b", conn_b)]) = (Ok vX, w1)
    ∧ SessionSettings_init protocols (Some "fix_b") w1 = (Ok vY, w2)
    ∧ _active_protocol (settings w2) = VClass "proto.fix50.Spec"
    ∧ (VClass "proto.fix44.Spec" ≠ VClass "proto.fix50.Spec" →
       _active_protocol (settings w2) ≠ VClass "proto.fix44.Spec")
    ∧ active_protocol protocols w2 = (Ok (VClass "proto.fix50.Spec"), w2).
Proof.
  eapply (projection_last_writer_wins protocols
            (start_world [("fix_a", conn_a); ("fix_b", conn_b)])
            [("fix_a", conn_a); ("fix_b", conn_b)] "fix_a" "fix_b"
            _ _ "proto.fix44.Spec" "proto.fix50.Spec").
  - reflexivity.
  - reflexivity.
  - dict_wf_decide.
  - reflexivity.
  - dict_wf_decide.
  - reflexivity.
  - reflexivity.
  - reflexivity.
  - reflexivity.
  - discriminate.
Defined.

(** C10.  Whatever the connection name and whatever the outcome,
    [SessionSettings.__init__] leaves every field of [settings] but the
    active-protocol cache as it was.  For a connection without a PROTOCOL
    entry it changes nothing at all, and the view it returns holds the
    parameters of the connection and nothing else; the same is true of the
    state when the name is omitted and that connection is the only one. *)
Theorem projection_frame (imp : string → Result module) (w : World) :
  (∀ connection_name, frame w (SessionSettings_init imp connection_name w).2)
  ∧ (∀ conns name cfg,
       attrs (settings w) !! "CONNECTIONS" = Some (VDict conns) →
       dict_get conns name = Some (VDict cfg) →
       dict_wf cfg →
       dict_get cfg "PROTOCOL" = None →
       ∃ view, SessionSettings_init imp (Some name) w = (Ok view, w)
               ∧ ∀ k, session_attrs view !! k = dict_get cfg k)
  ∧ (∀ name cfg,
       attrs (settings w) !! "CONNECTIONS" = Some (VDict [(name, VDict cfg)]) →
       dict_get cfg "PROTOCOL" = None →
       (SessionSettings_init imp None w).2 = w).
Proof.
  assert (Hno : ∀ cfg, dict_get cfg "PROTOCOL" = None →
                       "PROTOCOL" ∉ dict_keys cfg).
  { intros cfg Hget Hin. apply dict_get_bound in Hin as [v Hv]. congruence. }
  split; [|split].
  - intros connection_name. apply framed_init.
  - intros conns name cfg Hc Hname Hwf Hp.
    exists (written {| session_attrs := ∅ |} cfg). split.
    + rewrite init_named, (populate_run imp w conns name cfg) by done.
      apply for_in_without_protocol, Hno, Hp.
    + intros k. rewrite written_lookup by done.
      by destruct (dict_get cfg k).
  - intros name cfg Hc Hp.
    assert (Hname : dict_get [(name, VDict cfg)] name = Some (VDict cfg))
      by (simpl; by rewrite String.eqb_refl).
    pose proof (populate_run imp w _ name cfg Hc Hname) as Hrun.
    rewrite for_in_without_protocol in Hrun by (by apply Hno).
    unfold SessionSettings_init, default_connection, mbind, M_bind,
      the_settings, lift, default_connection_name, has_safe_defaults,
      CONNECTIONS.
    rewrite Hc. simpl. by rewrite Hrun.
Qed.

Lemma projection_frame_witness :
  ∃ view,
    SessionSettings_init protocols (Some "fix_c")
      (start_world [("fix_a", conn_a); ("fix_c", conn_plain)])
    = (Ok view, start_world [("fix_a", conn_a); ("fix_c", conn_plain)])
    ∧ ∀ k, session_attrs view !! k
           = dict_get [("HOST", VStr "10.0.0.3"); ("PORT", VInt 9878)] k.
Proof.
  eapply (projection_frame protocols
            (start_world [("fix_a", conn_a); ("fix_c", conn_plain)])).
  - reflexivity.
  - reflexivity.
  - dict_wf_decide.
  - reflexivity.
Defined.

(** C8, as the code has it.  [SessionSettings.__init__] wraps none of its
    failures.  A name that is not a key of CONNECTIONS raises KeyError.
    For a connection whose PROTOCOL string does not resolve, the exception
    of the step that failed comes out: ValueError when the string has no
    dot, the exception of [import_module] when the module cannot be
    imported, AttributeError when the module lacks the class. *)
Theorem SessionSettings_init_failures
    (imp : string → Result module) (w : World)
    (conns : list (string * pyval)) (name : string) :
  attrs (settings w) !! "CONNECTIONS" = Some (VDict conns) →
  (dict_get conns name = None →
     (SessionSettings_init imp (Some name) w).1 = Raise (KeyError name))
  ∧ (∀ cfg p,
       dict_get conns name = Some (VDict cfg) → dict_wf cfg →
       dict_get cfg "PROTOCOL" = Some (VStr p) →
       (rsplit_last_dot p = None →
          ∃ msg, (SessionSettings_init imp (Some name) w).1
                 = Raise (ValueError msg))
       ∧ (∀ mod_name class_name e,
            rsplit_last_dot p = Some (mod_name, class_name) →
            imp mod_name = Raise e →
            (SessionSettings_init imp (Some name) w).1 = Raise e)
       ∧ (∀ mod_name class_name md,
            rsplit_last_dot p = Some (mod_name, class_name) →
            imp mod_name = Ok md →
            dict_get md class_name = None →
            (SessionSettings_init imp (Some name) w).1
            = Raise (AttributeError class_name))).
Proof.
  intros Hc. split.
  - intros Hname. rewrite init_named.
    unfold SessionSettings_populate, mbind, M_bind, the_settings, lift,
      CONNECTIONS, dict_getitem.
    by rewrite Hc, Hname.
  - intros cfg p Hname Hwf Hp.
    assert (Hfail : ∀ e, resolve imp (VStr p) = Raise e →
              (SessionSettings_init imp (Some name) w).1 = Raise e).
    { intros e Hres.
      rewrite init_named, (populate_run imp w conns name cfg) by done.
      by destruct (for_in_protocol_fail imp cfg {| session_attrs := ∅ |}
                     (VStr p) e w Hwf Hp Hres) as (w' & -> & _). }
    pose proof (resolve_cases imp p) as Hcases.
    split; [|split].
    + intros Hsplit. rewrite Hsplit in Hcases.
      destruct Hcases as [msg Hmsg]. exists msg. by apply Hfail.
    + intros mod_name class_name e Hsplit Himp.
      rewrite Hsplit, Himp in Hcases. by apply Hfail.
    + intros mod_name class_name md Hsplit Himp Hclass.
      rewrite Hsplit, Himp, Hclass in Hcases. by apply Hfail.
Qed.

Lemma SessionSettings_init_failures_witness :
  (SessionSettings_init protocols (Some "fix_z")
     (start_world [("fix_a", conn_a); ("fix_d", conn_bad)])).1
  = Raise (KeyError "fix_z")
  ∧ (SessionSettings_init protocols (Some "fix_d")
       (start_world [("fix_a", conn_a); ("fix_d", conn_bad)])).1
    = Raise (ImportError "proto.fix99")
  ∧ (∃ msg,
       (SessionSettings_init protocols (Some "fix_n")
          (start_world [("fix_n", VDict [("PROTOCOL", VStr "Spec")])])).1
       = Raise (ValueError msg))
  ∧ (SessionSettings_init protocols (Some "fix_m")
       (start_world
          [("fix_m", VDict [("PROTOCOL", VStr "proto.fix44.Missing")])])).1
    = Raise (AttributeError "Missing").
Proof.
  split; [|split; [|split]].
  - apply (SessionSettings_init_failures protocols
             (start_world [("fix_a", conn_a); ("fix_d", conn_bad)])
             [("fix_a", conn_a); ("fix_d", conn_bad)] "fix_z");
      reflexivity.
  - destruct (SessionSettings_init_failures protocols
                (start_world [("fix_a", conn_a); ("fix_d", conn_bad)])
                [("fix_a", conn_a); ("fix_d", conn_bad)] "fix_d" eq_refl)
      as [_ Hprotocol].
    destruct (Hprotocol _ "proto.fix99.Spec" eq_refl
                ltac:(dict_wf_decide) eq_refl) as (_ & Himport & _).
    by apply (Himport "proto.fix99" "Spec").
  - destruct (SessionSettings_init_failures protocols
                (start_world [("fix_n", VDict [("PROTOCOL", VStr "Spec")])])
                [("fix_n", VDict [("PROTOCOL", VStr "Spec")])] "fix_n" eq_refl)
      as [_ Hprotocol].
    destruct (Hprotocol _ "Spec" eq_refl ltac:(dict_wf_decide) eq_refl)
      as (Hnodot & _).
    by apply Hnodot.
  - destruct (SessionSettings_init_failures protocols
                (start_world
                   [("fix_m", VDict [("PROTOCOL", VStr "proto.fix44.Missing")])])
                [("fix_m", VDict [("PROTOCOL", VStr "proto.fix44.Missing")])]
                "fix_m" eq_refl)
      as [_ Hprotocol].
    destruct (Hprotocol _ "proto.fix44.Missing" eq_refl
                ltac:(dict_wf_decide) eq_refl) as (_ & _ & Hclass).
    by apply (Hclass "proto.fix44" "Missing" [("Spec", VClass "proto.fix44.Spec")]).
Defined.

(** C8 as stated fails: an unknown connection name ends in KeyError and an
    unloadable PROTOCOL in the import error, neither of which is
    ImproperlyConfigured. *)
Lemma SessionSettings_init_raises_other_errors :
  (SessionSettings_init protocols (Some "fix_b")
     (start_world [("fix_a", conn_a)])).1 = Raise (KeyError "fix_b")
  ∧ (SessionSettings_init protocols (Some "fix_d")
       (start_world [("fix_d", conn_bad)])).1
    = Raise (ImportError "proto.fix99").
Proof. split; reflexivity. Qed.

(** With the name omitted the constructor never returns: line 169
    subscripts the [SessionSettings] that [default_connection] built. *)
Lemma SessionSettings_init_default_never_returns
    (imp : string → Result module) (w : World) :
  ∃ e, (SessionSettings_init imp None w).1 = Raise e.
Proof.
  unfold SessionSettings_init, mbind, M_bind at 1 2.
  destruct (default_connection imp w) as [[dc|e] w1]; simpl; eauto.
Qed.

(** C9 at a configuration with a single connection: without a name the
    constructor raises TypeError, where the explicit name gives a view. *)
Theorem SessionSettings_init_default_raises :
  (SessionSettings_init protocols None (start_world [("fix_c", conn_plain)])).1
  = Raise (TypeError "'SessionSettings' object is not subscriptable")
  ∧ ∃ view,
      (SessionSettings_init protocols (Some "fix_c")
         (start_world [("fix_c", conn_plain)])).1 = Ok view
      ∧ session_attrs view !! "HOST" = Some (VStr "10.0.0.3").
Proof.
  split; [reflexivity|]. eexists. split; reflexivity.
Qed.

End ConfFacts.

(* ===================================================================== *)
(** ** Facts about the launcher *)
(* ===================================================================== *)

Module RunClientFacts.
Import Py RunClient Samples.

Lemma stop_attempts_app (tr tr' : list event) :
  stop_attempts (tr ++ tr') = stop_attempts tr + stop_attempts tr'.
Proof. unfold stop_attempts. by rewrite filter_app, length_app. Qed.

Lemma trace_bind {A B : Type} (m : T A) (k : A → T B) :
  (m ≫= k).1
  = m.1 ++ match m.2 with
           | Ok a => (k a).1
           | Raise _ => []
           end.
Proof.
  unfold mbind, T_bind. destruct m as [tr [a|e]]; simpl.
  - by destruct (k a).
  - by rewrite app_nil_r.
Qed.

Lemma add_signal_handlers_no_stop (rt : Runtime) (names : list string) :
  stop_attempts (add_signal_handlers rt names).1 = 0.
Proof.
  induction names as [|sig_name names IH]; [done|].
  cbn [add_signal_handlers]. rewrite !trace_bind, !stop_attempts_app. simpl.
  destruct (add_signal_handler rt sig_name) as [[]|e]; simpl; [|done].
  by rewrite IH.
Qed.

Lemma except_clauses_no_stop (e : exn) (handler : T unit) :
  except_clauses e = Some handler → stop_attempts handler.1 = 0.
Proof.
  destruct e; simpl; intros H; by simplify_eq.
Qed.

(** Nothing in the guarded part stops the pipeline. *)
Lemma guarded_no_stop (rt : Runtime) : stop_attempts (guarded rt).1 = 0.
Proof.
  assert (Hbody : stop_attempts (try_body rt).1 = 0).
  { unfold try_body. rewrite !trace_bind, !stop_attempts_app.
    rewrite add_signal_handlers_no_stop.
    destruct (add_signal_handlers rt (signal_names rt)).2 as [[]|]; [|done].
    simpl. by destruct (start_result rt). }
  unfold guarded, try_except.
  destruct (try_body rt) as [tr [a|e]]; [done|]. simpl in Hbody.
  destruct (except_clauses e) as [[tr' r]|] eqn:E; [|done].
  apply except_clauses_no_stop in E. simpl in *.
  rewrite stop_attempts_app. lia.
Qed.

Lemma guarded_outcome (rt : Runtime) :
  (guarded rt).2
  = match (try_body rt).2 with
    | Ok a => Ok a
    | Raise e =>
        match except_clauses e with
        | Some handler => handler.2
        | None => Raise e
        end
    end.
Proof.
  unfold guarded, try_except. destruct (try_body rt) as [tr [a|e]]; [done|].
  simpl. by destruct (except_clauses e) as [[tr' r]|].
Qed.

Lemma main_block_split (rt : Runtime) :
  (main_block rt).1 = (guarded rt).1 ++ (cleanup rt).1
  ∧ (main_block rt).2
    = match (cleanup rt).2 with
      | Ok _ => (guarded rt).2
      | Raise e => Raise e
      end.
Proof.
  unfold main_block, try_finally.
  destruct (guarded rt) as [tr r], (cleanup rt) as [tr' [a|e]]; by simpl.
Qed.

Lemma cleanup_trace (rt : Runtime) :
  ∃ after, (cleanup rt).1 = PipelineStop :: after ∧ stop_attempts after = 0.
Proof.
  unfold cleanup, try_except, mbind, T_bind, emit, outcome. simpl.
  destruct (stop_result rt) as [[]|e]; simpl; [by exists []|].
  destruct e; simpl; by eexists.
Qed.

Lemma cleanup_ok (rt : Runtime) :
  stop_result rt = Ok tt → (cleanup rt).2 = Ok tt.
Proof.
  intros H. unfold cleanup, try_except, mbind, T_bind, emit, outcome.
  by rewrite H.
Qed.

Lemma cleanup_cancelled (rt : Runtime) (msg : string) :
  stop_result rt = Raise (CancelledError msg) →
  (cleanup rt).2 = Raise (SystemExit EX_UNAVAILABLE).
Proof.
  intros H. unfold cleanup, try_except, mbind, T_bind, emit, outcome.
  by rewrite H.
Qed.

(** C1, as the code has it.  Let the guarded block end with the exception
    [e].  When the stop attempt of the cleanup returns, the exit status is
    the one of the mapping: success for ImproperlyConfigured and for
    KeyboardInterrupt, service unavailable for TimeoutError, for
    CancelledError and for any other [Exception].  When that stop attempt
    is cancelled, the exit status is service unavailable whatever [e]. *)
Theorem exit_status_mapping (rt : Runtime) (e : exn) :
  (try_body rt).2 = Raise e →
  (stop_result rt = Ok tt →
     ((∃ msg, e = ImproperlyConfigured msg) → launch rt = Exited EX_OK)
     ∧ (e = KeyboardInterrupt → launch rt = Exited EX_OK)
     ∧ ((∃ msg, e = TimeoutError msg) → launch rt = Exited EX_UNAVAILABLE)
     ∧ ((∃ msg, e = CancelledError msg) → launch rt = Exited EX_UNAVAILABLE)
     ∧ (is_Exception e = true → (∀ msg, e ≠ ImproperlyConfigured msg) →
        launch rt = Exited EX_UNAVAILABLE))
  ∧ (∀ msg, stop_result rt = Raise (CancelledError msg) →
       launch rt = Exited EX_UNAVAILABLE).
Proof.
  intros Hbody. destruct (main_block_split rt) as [_ Hout].
  pose proof (guarded_outcome rt) as Hg. rewrite Hbody in Hg.
  unfold launch. rewrite Hout. split.
  - intros Hstop. rewrite (cleanup_ok rt Hstop), Hg.
    repeat split.
    + by intros [msg ->].
    + by intros ->.
    + by intros [msg ->].
    + by intros [msg ->].
    + intros Hexc Hnot. destruct e; try done. by destruct (Hnot msg).
  - intros msg Hstop. by rewrite (cleanup_cancelled rt msg Hstop).
Qed.

Lemma exit_status_mapping_witness :
  launch (runtime_of (Raise (ImproperlyConfigured "no such connection")) (Ok tt))
  = Exited EX_OK
  ∧ launch (runtime_of (Raise (OtherException "OSError" "refused")) (Ok tt))
    = Exited EX_UNAVAILABLE
  ∧ launch (runtime_of (Raise KeyboardInterrupt) (Raise (CancelledError "")))
    = Exited EX_UNAVAILABLE.
Proof.
  split; [|split].
  - destruct (exit_status_mapping
                (runtime_of (Raise (ImproperlyConfigured "no such connection"))
                            (Ok tt))
                (ImproperlyConfigured "no such connection") eq_refl)
      as [Hreturns _].
    destruct (Hreturns eq_refl) as (Hconf & _). apply Hconf. by eexists.
  - destruct (exit_status_mapping
                (runtime_of (Raise (OtherException "OSError" "refused")) (Ok tt))
                (OtherException "OSError" "refused") eq_refl)
      as [Hreturns _].
    destruct (Hreturns eq_refl) as (_ & _ & _ & _ & Hother).
    apply Hother; [reflexivity|discriminate].
  - destruct (exit_status_mapping
                (runtime_of (Raise KeyboardInterrupt) (Raise (CancelledError "")))
                KeyboardInterrupt eq_refl)
      as [_ Hcancelled].
    by apply (Hcancelled "").
Defined.

(** C1 as stated fails: a configuration error followed by a cancelled
    cleanup stop exits with service unavailable, not with success. *)
Lemma configuration_error_then_cancelled_stop :
  (try_body (runtime_of (Raise (ImproperlyConfigured "no such connection"))
                        (Raise (CancelledError "")))).2
  = Raise (ImproperlyConfigured "no such connection")
  ∧ launch (runtime_of (Raise (ImproperlyConfigured "no such connection"))
                       (Raise (CancelledError "")))
    = Exited EX_UNAVAILABLE
  ∧ EX_UNAVAILABLE ≠ EX_OK.
Proof. by repeat split. Qed.

Lemma main_block_stops_once (rt : Runtime) :
  stop_attempts (main_block rt).1 = 1.
Proof.
  destruct (main_block_split rt) as [Htr _].
  destruct (cleanup_trace rt) as (after & Hafter & Hnone).
  rewrite Htr, stop_attempts_app, guarded_no_stop, Hafter.
  unfold stop_attempts in *. rewrite filter_cons. simpl. by rewrite Hnone.
Qed.

Lemma graceful_shutdown_stops_once (sh : Shutdown) (sig_name_ : string) :
  activity_stops (graceful_shutdown sh sig_name_).1 = 1.
Proof.
  unfold graceful_shutdown, shutdown_body.
  destruct sh as [[[]|e] [[]|e']]; simpl; try done.
  - by destruct e'.
  - by destruct e.
  - by destruct e.
Qed.

Lemma activity_stops_Act (tr : list event) :
  activity_stops (Act <$> tr) = stop_attempts tr.
Proof.
  unfold activity_stops, stop_attempts.
  induction tr as [|ev tr IH]; [done|].
  rewrite fmap_cons, !filter_cons.
  destruct ev; simpl; by rewrite IH.
Qed.

Lemma activity_stops_app (tr tr' : list activity) :
  activity_stops (tr ++ tr') = activity_stops tr + activity_stops tr'.
Proof. unfold activity_stops. by rewrite filter_app, length_app. Qed.

(** Each run of the signal handler asks for one stop. *)
Lemma handler_runs_stops (runs : list (Shutdown * string)) :
  activity_stops (concat ((λ r, (graceful_shutdown r.1 r.2).1) <$> runs))
  = length runs.
Proof.
  induction runs as [|[sh sig_name_] runs IH]; [done|].
  rewrite fmap_cons. cbn [concat].
  rewrite activity_stops_app, graceful_shutdown_stops_once, IH. done.
Qed.

(** C5, as the code has it.  Whatever the guarded block did, the cleanup
    issues one stop attempt, after everything else the block does, and
    the block itself issues no other: in a launch during which signal
    handlers ran, the pipeline sees one stop attempt per handler run and
    this additional one.  When the cleanup attempt returns, the exit is
    the one the guarded block had determined; when it is cancelled, the
    exit status is service unavailable. *)
Theorem cleanup_stops_once (rt : Runtime) :
  (∃ after,
     (main_block rt).1 = (guarded rt).1 ++ PipelineStop :: after
     ∧ stop_attempts (guarded rt).1 = 0
     ∧ stop_attempts after = 0
     ∧ stop_attempts (main_block rt).1 = 1)
  ∧ (∀ (runs : list (Shutdown * string)) (tr : list activity),
       tr ≡ₚ (Act <$> (main_block rt).1)
             ++ concat ((λ r, (graceful_shutdown r.1 r.2).1) <$> runs) →
       activity_stops tr = length runs + 1)
  ∧ (stop_result rt = Ok tt → launch rt = terminate (guarded rt).2)
  ∧ (∀ msg, stop_result rt = Raise (CancelledError msg) →
       launch rt = Exited EX_UNAVAILABLE).
Proof.
  destruct (main_block_split rt) as [Htr Hout].
  destruct (cleanup_trace rt) as (after & Hafter & Hnone).
  split; [|split; [|split]].
  - exists after. rewrite Htr, Hafter.
    pose proof (guarded_no_stop rt) as Hg.
    repeat split; try done.
    unfold stop_attempts in *. rewrite filter_app, length_app, Hg.
    rewrite filter_cons. simpl. by rewrite Hnone.
  - intros runs tr Hperm.
    unfold activity_stops. rewrite Hperm.
    change (activity_stops
              ((Act <$> (main_block rt).1)
               ++ concat ((λ r, (graceful_shutdown r.1 r.2).1) <$> runs))
            = length runs + 1).
    rewrite activity_stops_app, activity_stops_Act, main_block_stops_once,
      handler_runs_stops.
    lia.
  - intros Hstop. unfold launch. by rewrite Hout, (cleanup_ok rt Hstop).
  - intros msg Hstop. unfold launch.
    by rewrite Hout, (cleanup_cancelled rt msg Hstop).
Qed.

Lemma cleanup_stops_once_witness :
  launch (runtime_of (Raise (TimeoutError "logon timed out")) (Ok tt))
  = terminate (guarded (runtime_of (Raise (TimeoutError "logon timed out"))
                                   (Ok tt))).2
  ∧ launch (runtime_of (Ok tt) (Raise (CancelledError "")))
    = Exited EX_UNAVAILABLE
  ∧ activity_stops
      ((Act <$> (main_block (runtime_of (Ok tt) (Ok tt))).1)
       ++ concat ((λ r, (graceful_shutdown r.1 r.2).1)
                    <$> [({| await_stop := Ok tt; cancel_task := Ok tt |},
                          "SIGTERM")]))
    = 2.
Proof.
  split; [|split].
  - destruct (cleanup_stops_once
                (runtime_of (Raise (TimeoutError "logon timed out")) (Ok tt)))
      as (_ & _ & Hreturns & _).
    by apply Hreturns.
  - destruct (cleanup_stops_once
                (runtime_of (Ok tt) (Raise (CancelledError ""))))
      as (_ & _ & _ & Hcancelled).
    by apply (Hcancelled "").
  - destruct (cleanup_stops_once (runtime_of (Ok tt) (Ok tt)))
      as (_ & Hruns & _).
    apply (Hruns [({| await_stop := Ok tt; cancel_task := Ok tt |}, "SIGTERM")]).
    reflexivity.
Defined.

(** C5 as stated fails: after a keyboard interrupt the status determined
    by the guarded block is success, and a cancelled cleanup stop turns it
    into service unavailable. *)
Lemma cancelled_stop_changes_status :
  terminate (guarded (runtime_of (Raise KeyboardInterrupt)
                                 (Raise (CancelledError "")))).2
  = Exited EX_OK
  ∧ launch (runtime_of (Raise KeyboardInterrupt) (Raise (CancelledError "")))
    = Exited EX_UNAVAILABLE
  ∧ launch (runtime_of (Raise KeyboardInterrupt) (Ok tt)) = Exited EX_OK
  ∧ Exited EX_UNAVAILABLE ≠ Exited EX_OK.
Proof. by repeat split. Qed.

End RunClientFacts.

(* ===================================================================== *)
(** ** More on the settings module *)
(* ===================================================================== *)

Module ConfExtra.
Import Py Conf Samples ConfFacts.

(** *** What [Settings.__init__] builds *)

Lemma dict_get_not_bound (m : list (string * pyval)) (name : string) :
  name ∉ m.*1 → dict_get m name = None.
Proof.
  intros Hout. destruct (dict_get m name) as [v|] eqn:E; [|done].
  by apply dict_get_Some_keys in E.
Qed.

(** The defaults loop, read off one name at a time. *)
Lemma load_defaults_lookup (gs : module) (l : list string)
    (ns ns' : gmap string pyval) :
  for_each
    (λ (ns : gmap string pyval) setting,
       if isupper setting then
         v ← module_getattr gs setting; mret (<[setting := v]> ns)
       else Ok ns) ns l = Ok ns' →
  ∀ k, ns' !! k = if decide (isupper k = true ∧ k ∈ l)
                  then dict_get gs k else ns !! k.
Proof.
  revert ns. induction l as [|x l IH]; intros ns Hrun k.
  - injection Hrun as <-. case_decide as H; [|done].
    destruct H as [_ H]. inversion H.
  - simpl in Hrun. destruct (isupper x) eqn:Hx.
    + unfold module_getattr in Hrun.
      destruct (dict_get gs x) as [v|] eqn:Hv; [|done]. simpl in Hrun.
      rewrite (IH _ Hrun k).
      destruct (decide (isupper k = true ∧ k ∈ l)) as [[Hk Hin]|Hno].
      * rewrite decide_True; [done|]. split; [done|by right].
      * destruct (decide (x = k)) as [->|Hne].
        -- rewrite lookup_insert_eq, decide_True; [done|]. split; [done|left].
        -- rewrite lookup_insert_ne by done. rewrite decide_False; [done|].
           intros [Hk Hin]. apply Hno. split; [done|].
           by apply elem_of_cons in Hin as [->|Hin].
    + rewrite (IH _ Hrun k).
      destruct (decide (isupper k = true ∧ k ∈ l)) as [[Hk Hin]|Hno].
      * rewrite decide_True; [done|]. split; [done|by right].
      * rewrite decide_False; [done|]. intros [Hk Hin]. apply Hno.
        split; [done|]. apply elem_of_cons in Hin as [->|Hin]; [congruence|done].
Qed.

(** The overrides loop, likewise, when it runs to its end. *)
Lemma load_overrides_lookup (mod_ : module) (l : list string)
    (ns ns' : gmap string pyval) (ex ex' : gset string) :
  for_each
    (λ '((ns, explicit) : gmap string pyval * gset string) setting,
       if isupper setting then
         setting_value ← module_getattr mod_ setting;
         if String.eqb setting "PIPELINE_APPS"
            && negb (isinstance_list_tuple setting_value)
         then Raise (ImproperlyConfigured (must_be_list_msg setting))
         else Ok (<[setting := setting_value]> ns, explicit ∪ {[setting]})
       else Ok (ns, explicit)) (ns, ex) l = Ok (ns', ex') →
  ∀ k, (ns' !! k = if decide (isupper k = true ∧ k ∈ l)
                   then dict_get mod_ k else ns !! k)
       ∧ (k ∈ ex' ↔ k ∈ ex ∨ (isupper k = true ∧ k ∈ l)).
Proof.
  revert ns ex. induction l as [|x l IH]; intros ns ex Hrun k.
  - injection Hrun as <- <-. split.
    + case_decide as H; [|done]. destruct H as [_ H]. inversion H.
    + split; [by left|]. intros [?|[_ H]]; [done|inversion H].
  - simpl in Hrun. destruct (isupper x) eqn:Hx.
    + unfold module_getattr in Hrun.
      destruct (dict_get mod_ x) as [v|] eqn:Hv; [|done]. simpl in Hrun.
      destruct (String.eqb x "PIPELINE_APPS" && negb (isinstance_list_tuple v));
        [done|].
      destruct (IH _ _ Hrun k) as [Hns Hex]. split.
      * rewrite Hns.
        destruct (decide (isupper k = true ∧ k ∈ l)) as [[Hk Hin]|Hno].
        -- rewrite decide_True; [done|]. split; [done|by right].
        -- destruct (decide (x = k)) as [->|Hne].
           ++ rewrite lookup_insert_eq, decide_True; [done|]. split; [done|left].
           ++ rewrite lookup_insert_ne by done. rewrite decide_False; [done|].
              intros [Hk Hin]. apply Hno. split; [done|].
              by apply elem_of_cons in Hin as [->|Hin].
      * rewrite Hex, elem_of_union, elem_of_singleton, elem_of_cons.
        split; [intros [[?| ->]|[? ?]]|intros [?|[? [->|?]]]]; eauto.
    + destruct (IH _ _ Hrun k) as [Hns Hex]. split.
      * rewrite Hns.
        destruct (decide (isupper k = true ∧ k ∈ l)) as [[Hk Hin]|Hno].
        -- rewrite decide_True; [done|]. split; [done|by right].
        -- rewrite decide_False; [done|]. intros [Hk Hin]. apply Hno.
           split; [done|].
           apply elem_of_cons in Hin as [->|Hin]; [congruence|done].
      * rewrite Hex, elem_of_cons.
        split; [intros [?|[? ?]]|intros [?|[? [->|?]]]]; eauto; congruence.
Qed.

(** The overrides loop runs to its end when PIPELINE_APPS, if the module
    binds it, is a list or a tuple. *)
Lemma load_overrides_total (mod_ : module) (l : list string)
    (st : gmap string pyval * gset string) :
  (∀ v, dict_get mod_ "PIPELINE_APPS" = Some v → isinstance_list_tuple v = true) →
  l ⊆ dir mod_ →
  ∃ st',
    for_each
      (λ '((ns, explicit) : gmap string pyval * gset string) setting,
         if isupper setting then
           setting_value ← module_getattr mod_ setting;
           if String.eqb setting "PIPELINE_APPS"
              && negb (isinstance_list_tuple setting_value)
           then Raise (ImproperlyConfigured (must_be_list_msg setting))
           else Ok (<[setting := setting_value]> ns, explicit ∪ {[setting]})
         else Ok (ns, explicit)) st l = Ok st'.
Proof.
  intros Hok. revert st. induction l as [|x l IH]; intros [ns ex] Hl; [by eexists|].
  assert (Hx : x ∈ dir mod_) by (apply Hl; left).
  assert (Hl' : l ⊆ dir mod_) by (intros y Hy; apply Hl; by right).
  simpl. destruct (isupper x); [|by apply IH].
  destruct (dict_get_bound mod_ x Hx) as [v Hv].
  unfold module_getattr. rewrite Hv. simpl.
  destruct (String.eqb_spec x "PIPELINE_APPS") as [->|_]; simpl; [|by apply IH].
  rewrite (Hok v Hv). simpl. by apply IH.
Qed.

(** A successful construction, taken apart. *)
Lemma Settings_init_Ok_inv (gs : module) (imp : string → Result module)
    (environ : gmap string string) (sm : option string) (self : Settings) :
  Settings_init gs imp environ sm = Ok self →
  ∃ name mod_ ns0,
    settings_module_name environ sm = Ok name
    ∧ imp name = Ok mod_
    ∧ load_defaults gs ∅ = Ok ns0
    ∧ load_overrides mod_ (<["WTFIX_SETTINGS_MODULE" := VStr name]> ns0, ∅)
      = Ok (attrs self, _explicit_settings self)
    ∧ _logger self = None ∧ _active_protocol self = VNone.
Proof.
  unfold Settings_init, Settings_load, mbind, Result_bind, mret, Result_ret.
  destruct (settings_module_name environ sm) as [name|] eqn:Hname; [|done].
  destruct (load_defaults gs ∅) as [ns0|] eqn:Hdef; [|done].
  destruct (imp name) as [mod_|] eqn:Himp; [|done].
  destruct (load_overrides _ _) as [[ns ex]|] eqn:E; [|done].
  intros [= <-]. by exists name, mod_, ns0.
Qed.

(** Every attribute of a freshly built object, by cases on its name. *)
Lemma Settings_init_attrs (gs : module) (imp : string → Result module)
    (environ : gmap string string) (sm : option string) (self : Settings)
    (name : string) (mod_ : module) :
  Settings_init gs imp environ sm = Ok self →
  settings_module_name environ sm = Ok name →
  imp name = Ok mod_ →
  ∀ k,
    (attrs self !! k
     = if decide (isupper k = true ∧ k ∈ dir mod_) then dict_get mod_ k
       else if decide (k = "WTFIX_SETTINGS_MODULE") then Some (VStr name)
       else if isupper k then dict_get gs k else None)
    ∧ (k ∈ _explicit_settings self ↔ isupper k = true ∧ k ∈ dir mod_).
Proof.
  intros Hinit Hname Himp k.
  destruct (Settings_init_Ok_inv _ _ _ _ _ Hinit)
    as (name' & mod' & ns0 & Hname' & Himp' & Hdef & Hover & _).
  rewrite Hname in Hname'. injection Hname' as <-.
  rewrite Himp in Himp'. injection Himp' as <-.
  destruct (load_overrides_lookup _ _ _ _ _ _ Hover k) as [Hattrs Hex].
  split.
  - rewrite Hattrs. case_decide; [done|].
    destruct (decide (k = "WTFIX_SETTINGS_MODULE")) as [->|Hne].
    + by rewrite lookup_insert_eq.
    + rewrite lookup_insert_ne by done.
      rewrite (load_defaults_lookup _ _ _ _ Hdef k), lookup_empty.
      destruct (isupper k) eqn:Hk.
      * case_decide as Hin; [done|]. symmetry. apply dict_get_not_bound.
        intros Hd. apply Hin. by split.
      * case_decide as Hin; [|done]. by destruct Hin.
  - rewrite Hex. split; [intros [H|H]; [set_solver|done]|by right].
Qed.

(** X1.  A setting of the override module takes precedence: an ALL_CAPS
    name the module binds has the module's value on the new object,
    whatever [global_settings] says about it. *)
Theorem Settings_init_override_wins
    (gs : module) (imp : string → Result module)
    (environ : gmap string string) (sm : option string) (self : Settings)
    (name : string) (mod_ : module) (k : string) (v : pyval) :
  Settings_init gs imp environ sm = Ok self →
  settings_module_name environ sm = Ok name →
  imp name = Ok mod_ →
  isupper k = true →
  dict_get mod_ k = Some v →
  attrs self !! k = Some v.
Proof.
  intros Hinit Hname Himp Hk Hv.
  destruct (Settings_init_attrs _ _ _ _ _ _ _ Hinit Hname Himp k) as [-> _].
  rewrite decide_True; [done|]. split; [done|]. by eapply dict_get_Some_keys.
Qed.

Lemma Settings_init_override_wins_witness :
  ∃ self,
    Settings_init sample_globals sample_import ∅ (Some "conf") = Ok self
    ∧ attrs self !! "CONNECTIONS" = Some (VDict [("fix_a", conn_a)]).
Proof.
  eexists. split; [reflexivity|].
  eapply (Settings_init_override_wins sample_globals sample_import ∅
            (Some "conf") _ "conf" sample_overrides); reflexivity.
Defined.

(** X2.  A default survives when the override module does not bind it:
    an ALL_CAPS name of [global_settings] that the module leaves alone
    keeps its built-in value and is not recorded as explicit. *)
Theorem Settings_init_keeps_defaults
    (gs : module) (imp : string → Result module)
    (environ : gmap string string) (sm : option string) (self : Settings)
    (name : string) (mod_ : module) (k : string) :
  Settings_init gs imp environ sm = Ok self →
  settings_module_name environ sm = Ok name →
  imp name = Ok mod_ →
  isupper k = true →
  k ∉ dir mod_ →
  k ≠ "WTFIX_SETTINGS_MODULE" →
  attrs self !! k = dict_get gs k ∧ k ∉ _explicit_settings self.
Proof.
  intros Hinit Hname Himp Hk Hout Hne.
  destruct (Settings_init_attrs _ _ _ _ _ _ _ Hinit Hname Himp k) as [-> Hex].
  split.
  - rewrite decide_False by (by intros [_ ?]).
    by rewrite decide_False, Hk by done.
  - rewrite Hex. by intros [_ ?].
Qed.

Lemma Settings_init_keeps_defaults_witness :
  ∃ self,
    Settings_init sample_globals sample_import ∅ (Some "conf") = Ok self
    ∧ attrs self !! "LOGGER" = Some (VStr "wtfix")
    ∧ "LOGGER" ∉ _explicit_settings self.
Proof.
  eexists. split; [reflexivity|].
  eapply (Settings_init_keeps_defaults sample_globals sample_import ∅
            (Some "conf") _ "conf" sample_overrides).
  - reflexivity.
  - reflexivity.
  - reflexivity.
  - reflexivity.
  - apply (bool_decide_unpack _). vm_compute. exact I.
  - discriminate.
Defined.

(** X3.  Only ALL_CAPS names become settings: every attribute that
    [Settings.__init__] writes with [setattr] has an upper-case name, so
    private and lower-case names of either module never leak in. *)
Theorem Settings_init_only_upper_case
    (gs : module) (imp : string → Result module)
    (environ : gmap string string) (sm : option string) (self : Settings)
    (k : string) :
  Settings_init gs imp environ sm = Ok self →
  is_Some (attrs self !! k) →
  isupper k = true.
Proof.
  intros Hinit [v Hv].
  destruct (Settings_init_Ok_inv _ _ _ _ _ Hinit)
    as (name & mod_ & ns0 & Hname & Himp & _).
  destruct (Settings_init_attrs _ _ _ _ _ _ _ Hinit Hname Himp k) as [Hk _].
  rewrite Hv in Hk. case_decide as H1; [by destruct H1|].
  case_decide as H2; [by subst k|]. by destruct (isupper k).
Qed.

Lemma Settings_init_only_upper_case_witness :
  ∃ self,
    Settings_init sample_globals sample_import ∅ (Some "conf") = Ok self
    ∧ isupper "LOGGING_LEVEL" = true.
Proof.
  eexists. split; [reflexivity|].
  eapply (Settings_init_only_upper_case sample_globals sample_import ∅
            (Some "conf")); [reflexivity|].
  eexists. reflexivity.
Defined.

(** X4.  The object remembers where it came from: unless the override
    module itself binds WTFIX_SETTINGS_MODULE, that attribute holds the
    name of the module that was loaded, even when [global_settings] binds
    the same name. *)
Theorem Settings_init_records_module
    (gs : module) (imp : string → Result module)
    (environ : gmap string string) (sm : option string) (self : Settings)
    (name : string) (mod_ : module) :
  Settings_init gs imp environ sm = Ok self →
  settings_module_name environ sm = Ok name →
  imp name = Ok mod_ →
  dict_get mod_ "WTFIX_SETTINGS_MODULE" = None →
  attrs self !! "WTFIX_SETTINGS_MODULE" = Some (VStr name).
Proof.
  intros Hinit Hname Himp Hnone.
  destruct (Settings_init_attrs _ _ _ _ _ _ _ Hinit Hname Himp
              "WTFIX_SETTINGS_MODULE") as [-> _].
  rewrite decide_False; [by rewrite decide_True|].
  intros [_ Hin]. apply dict_get_bound in Hin as [v Hv]. congruence.
Qed.

Lemma Settings_init_records_module_witness :
  ∃ self,
    Settings_init sample_globals sample_import
      {[ENVIRONMENT_VARIABLE := "conf"]} None = Ok self
    ∧ attrs self !! "WTFIX_SETTINGS_MODULE" = Some (VStr "conf").
Proof.
  eexists. split; [reflexivity|].
  eapply (Settings_init_records_module sample_globals sample_import
            {[ENVIRONMENT_VARIABLE := "conf"]} None _ "conf" sample_overrides);
    reflexivity.
Defined.

(** X5.  [_explicit_settings] is exactly the set of ALL_CAPS names of the
    override module: nothing from [global_settings] alone, and not the
    module name recorded by the constructor. *)
Theorem Settings_init_explicit_settings
    (gs : module) (imp : string → Result module)
    (environ : gmap string string) (sm : option string) (self : Settings)
    (name : string) (mod_ : module) (k : string) :
  Settings_init gs imp environ sm = Ok self →
  settings_module_name environ sm = Ok name →
  imp name = Ok mod_ →
  k ∈ _explicit_settings self ↔ isupper k = true ∧ k ∈ dir mod_.
Proof.
  intros Hinit Hname Himp.
  by destruct (Settings_init_attrs _ _ _ _ _ _ _ Hinit Hname Himp k).
Qed.

Lemma Settings_init_explicit_settings_witness :
  ∃ self,
    Settings_init sample_globals sample_import ∅ (Some "conf") = Ok self
    ∧ "LOGGING_LEVEL" ∈ _explicit_settings self
    ∧ "helper" ∉ _explicit_settings self.
Proof.
  eexists. split; [reflexivity|]. split.
  - eapply (Settings_init_explicit_settings sample_globals sample_import ∅
              (Some "conf") _ "conf" sample_overrides);
      [reflexivity..|].
    split; [reflexivity|]. apply (bool_decide_unpack _). vm_compute. exact I.
  - intros Hin.
    eapply (Settings_init_explicit_settings sample_globals sample_import ∅
              (Some "conf") _ "conf" sample_overrides) in Hin;
      [|reflexivity..].
    destruct Hin as [Hup _]. discriminate Hup.
Defined.

(** X6.  Construction succeeds as soon as the module can be imported and
    its PIPELINE_APPS, if it binds one, is a list or a tuple; the new
    object has no logger and an empty protocol cache.  The defaults are
    not checked: a PIPELINE_APPS of [global_settings] passes whatever its
    type. *)
Theorem Settings_init_succeeds
    (gs : module) (imp : string → Result module)
    (environ : gmap string string) (sm : option string)
    (name : string) (mod_ : module) :
  settings_module_name environ sm = Ok name →
  imp name = Ok mod_ →
  (∀ v, dict_get mod_ "PIPELINE_APPS" = Some v →
        isinstance_list_tuple v = true) →
  ∃ self, Settings_init gs imp environ sm = Ok self
          ∧ _logger self = None ∧ _active_protocol self = VNone.
Proof.
  intros Hname Himp Hok.
  unfold Settings_init, Settings_load. rewrite Hname. simpl.
  destruct (load_defaults_total gs (dir gs) ∅) as [ns0 Hns0]; [done|].
  unfold load_defaults. rewrite Hns0. simpl. rewrite Himp. simpl.
  destruct (load_overrides_total mod_ (dir mod_)
              (<["WTFIX_SETTINGS_MODULE" := VStr name]> ns0, ∅) Hok)
    as [[ns ex] Hrun]; [done|].
  unfold load_overrides. rewrite Hrun. simpl. by eexists.
Qed.

Lemma Settings_init_succeeds_witness :
  ∃ self,
    Settings_init sample_globals sample_import ∅ (Some "conf") = Ok self
    ∧ _logger self = None ∧ _active_protocol self = VNone.
Proof.
  eapply (Settings_init_succeeds sample_globals sample_import ∅ (Some "conf")
            "conf" sample_overrides).
  - reflexivity.
  - reflexivity.
  - intros v Hv. discriminate Hv.
Defined.

(** X7.  A settings module that cannot be imported ends the construction
    with the exception of the import, unchanged; it is not turned into
    ImproperlyConfigured. *)
Theorem Settings_init_import_error
    (gs : module) (imp : string → Result module)
    (environ : gmap string string) (sm : option string)
    (name : string) (e : exn) :
  settings_module_name environ sm = Ok name →
  imp name = Raise e →
  Settings_init gs imp environ sm = Raise e.
Proof.
  intros Hname Himp.
  unfold Settings_init, Settings_load. rewrite Hname. simpl.
  destruct (load_defaults_total gs (dir gs) ∅) as [ns0 Hns0]; [done|].
  unfold load_defaults. rewrite Hns0. simpl. by rewrite Himp.
Qed.

Lemma Settings_init_import_error_witness :
  Settings_init sample_globals sample_import ∅ (Some "missing")
  = Raise (ImportError "missing").
Proof.
  apply (Settings_init_import_error sample_globals sample_import ∅
           (Some "missing") "missing"); reflexivity.
Defined.

(** *** Default connection and group templates *)

Lemma CONNECTIONS_dict (self : Settings) (conns : list (string * pyval)) :
  attrs self !! "CONNECTIONS" = Some (VDict conns) → CONNECTIONS self = Ok conns.
Proof. intros H. unfold CONNECTIONS. by rewrite H. Qed.

(** X8.  Without exactly one connection there is no default: with an
    empty CONNECTIONS [has_safe_defaults] is false and
    [default_connection_name] raises ImproperlyConfigured (with the
    message about more than one session); when no module defines
    CONNECTIONS at all, the attribute lookup fails with AttributeError. *)
Theorem default_connection_name_none (self : Settings) :
  (attrs self !! "CONNECTIONS" = Some (VDict []) →
     has_safe_defaults self = Ok false
     ∧ default_connection_name self = Raise (ImproperlyConfigured ambiguous_msg))
  ∧ (attrs self !! "CONNECTIONS" = None →
     has_safe_defaults self = Raise (AttributeError "CONNECTIONS")
     ∧ default_connection_name self = Raise (AttributeError "CONNECTIONS")).
Proof.
  split; intros H;
    unfold default_connection_name, has_safe_defaults, CONNECTIONS;
    by rewrite H.
Qed.

Lemma default_connection_name_none_witness :
  default_connection_name (settings_with [])
  = Raise (ImproperlyConfigured ambiguous_msg)
  ∧ default_connection_name
      {| _logger := None; attrs := ∅; _explicit_settings := ∅;
         _active_protocol := VNone |}
    = Raise (AttributeError "CONNECTIONS").
Proof.
  split.
  - by apply (default_connection_name_none (settings_with [])).
  - by apply (default_connection_name_none
                {| _logger := None; attrs := ∅; _explicit_settings := ∅;
                   _active_protocol := VNone |}).
Defined.

(** X9.  [get_group_templates] without a connection name falls back to
    the default connection: with one connection configured the call is
    the same as naming it; with none or several it raises the
    ImproperlyConfigured of [default_connection_name] before it looks at
    any template. *)
Theorem get_group_templates_default_connection
    (self : Settings) (conns : list (string * pyval))
    (identifiers : option (gset string)) :
  attrs self !! "CONNECTIONS" = Some (VDict conns) →
  (∀ name cfg, conns = [(name, cfg)] →
     get_group_templates self None identifiers
     = get_group_templates self (Some name) identifiers)
  ∧ (length conns ≠ 1 →
     get_group_templates self None identifiers
     = Raise (ImproperlyConfigured ambiguous_msg)).
Proof.
  intros Hc. apply CONNECTIONS_dict in Hc. split.
  - intros name cfg ->.
    unfold get_group_templates, default_connection_name, has_safe_defaults.
    by rewrite Hc.
  - intros Hlen.
    unfold get_group_templates, default_connection_name, has_safe_defaults.
    rewrite Hc. simpl. by destruct (Nat.eqb_spec (length conns) 1).
Qed.

Lemma get_group_templates_default_connection_witness :
  get_group_templates (settings_with [("fix_a", conn_a)]) None (Some {["A"]})
  = get_group_templates (settings_with [("fix_a", conn_a)]) (Some "fix_a")
      (Some {["A"]})
  ∧ get_group_templates (settings_with [("fix_a", conn_a); ("fix_b", conn_b)])
      None None
    = Raise (ImproperlyConfigured ambiguous_msg).
Proof.
  split.
  - by eapply (get_group_templates_default_connection
                 (settings_with [("fix_a", conn_a)]) [("fix_a", conn_a)]).
  - eapply (get_group_templates_default_connection
              (settings_with [("fix_a", conn_a); ("fix_b", conn_b)])
              [("fix_a", conn_a); ("fix_b", conn_b)]); [reflexivity|].
    simpl. lia.
Defined.

(** X10.  Asking for the templates of a connection that is not configured
    raises KeyError with the name asked for, whether identifiers were
    requested or not. *)
Theorem get_group_templates_unknown_connection
    (self : Settings) (conns : list (string * pyval)) (name : string)
    (identifiers : option (gset string)) :
  attrs self !! "CONNECTIONS" = Some (VDict conns) →
  dict_get conns name = None →
  get_group_templates self (Some name) identifiers = Raise (KeyError name).
Proof.
  intros Hc Hname. apply CONNECTIONS_dict in Hc.
  unfold get_group_templates. simpl. rewrite Hc. simpl.
  unfold dict_getitem. by rewrite Hname.
Qed.

Lemma get_group_templates_unknown_connection_witness :
  get_group_templates (settings_with [("fix_a", conn_a)]) (Some "fix_z") None
  = Raise (KeyError "fix_z").
Proof.
  by apply (get_group_templates_unknown_connection
              (settings_with [("fix_a", conn_a)]) [("fix_a", conn_a)]).
Defined.

Lemma get_group_templates_named
    (self : Settings) (conns : list (string * pyval)) (name : string)
    (cfg : list (string * pyval)) (v : pyval)
    (identifiers : option (gset string)) :
  attrs self !! "CONNECTIONS" = Some (VDict conns) →
  dict_get conns name = Some (VDict cfg) →
  dict_get cfg "GROUP_TEMPLATES" = Some v →
  get_group_templates self (Some name) identifiers
  = match identifiers with
    | None => Ok v
    | Some ids =>
        session_items ← items v;
        let templates := filter (λ it, it.1 ∈ ids) session_items in
        if negb (length templates =? size ids)%nat then
          Raise (ImproperlyConfigured
                   (no_template_msg (ids ∖ list_to_set (dict_keys templates))))
        else Ok (VDict templates)
    end.
Proof.
  intros Hc Hname Hcfg. apply CONNECTIONS_dict in Hc.
  unfold get_group_templates. simpl. rewrite Hc. simpl.
  unfold dict_getitem at 1. rewrite Hname. simpl.
  unfold dict_getitem. rewrite Hcfg. simpl. by destruct identifiers.
Qed.

Lemma filter_all_keys (d : list (string * pyval)) (ids : gset string) :
  (∀ k, k ∈ dict_keys d → k ∈ ids) → filter (λ it, it.1 ∈ ids) d = d.
Proof.
  induction d as [|[k v] d IH]; intros Hall; [done|].
  rewrite filter_cons. simpl. rewrite decide_True by (apply Hall; left).
  f_equal. apply IH. intros k' Hk'. apply Hall. by right.
Qed.

Lemma filter_no_keys (d : list (string * pyval)) (ids : gset string) :
  ids = ∅ → filter (λ it, it.1 ∈ ids) d = [].
Proof.
  intros ->. induction d as [|[k v] d IH]; [done|].
  rewrite filter_cons. by rewrite decide_False by apply not_elem_of_empty.
Qed.

(** X11.  The two ends of a request.  An empty set of identifiers gives
    the empty dict; the set of all identifiers the connection defines
    gives back the connection's whole GROUP_TEMPLATES, in its order, as
    does a call without identifiers. *)
Theorem get_group_templates_none_and_all
    (self : Settings) (conns : list (string * pyval)) (name : string)
    (cfg tmpl : list (string * pyval)) :
  attrs self !! "CONNECTIONS" = Some (VDict conns) →
  dict_get conns name = Some (VDict cfg) →
  dict_get cfg "GROUP_TEMPLATES" = Some (VDict tmpl) →
  dict_wf tmpl →
  get_group_templates self (Some name) (Some ∅) = Ok (VDict [])
  ∧ get_group_templates self (Some name) (Some (list_to_set (dict_keys tmpl)))
    = get_group_templates self (Some name) None.
Proof.
  intros Hc Hname Hcfg Hwf.
  rewrite !(get_group_templates_named _ _ _ _ _ _ Hc Hname Hcfg).
  unfold items, mbind, Result_bind. cbv beta iota zeta.
  split.
  - by rewrite (filter_no_keys tmpl ∅).
  - rewrite filter_all_keys
      by (intros k Hk; by apply elem_of_list_to_set).
    rewrite size_list_to_set by done.
    unfold dict_keys. by rewrite length_fmap, Nat.eqb_refl.
Qed.

Lemma get_group_templates_none_and_all_witness :
  get_group_templates (settings_with [("fix_a", conn_a)]) (Some "fix_a")
    (Some ∅) = Ok (VDict [])
  ∧ get_group_templates (settings_with [("fix_a", conn_a)]) (Some "fix_a")
      (Some (list_to_set (dict_keys [("A", VList [VInt 1; VInt 2])])))
    = get_group_templates (settings_with [("fix_a", conn_a)]) (Some "fix_a")
        None.
Proof.
  eapply (get_group_templates_none_and_all (settings_with [("fix_a", conn_a)])
            [("fix_a", conn_a)] "fix_a").
  - reflexivity.
  - reflexivity.
  - reflexivity.
  - dict_wf_decide.
Defined.

(** X12.  The error of a request with undefined identifiers lists the
    undefined ones and only them: its message is built from the requested
    set minus the identifiers the connection defines. *)
Theorem get_group_templates_missing_exact
    (self : Settings) (conns : list (string * pyval)) (name : string)
    (cfg tmpl : list (string * pyval)) (ids : gset string) :
  attrs self !! "CONNECTIONS" = Some (VDict conns) →
  dict_get conns name = Some (VDict cfg) →
  dict_get cfg "GROUP_TEMPLATES" = Some (VDict tmpl) →
  dict_wf tmpl →
  ids ⊈ list_to_set (dict_keys tmpl) →
  get_group_templates self (Some name) (Some ids)
  = Raise (ImproperlyConfigured
             (no_template_msg (ids ∖ list_to_set (dict_keys tmpl)))).
Proof.
  intros Hc Hname Hcfg Hwf Hmiss.
  rewrite (get_group_templates_named _ _ _ _ _ _ Hc Hname Hcfg). simpl.
  destruct (Nat.eqb_spec (length (filter (λ it, it.1 ∈ ids) tmpl)) (size ids))
    as [Hlen|_].
  { by apply (found_all_iff ids tmpl Hwf) in Hlen. }
  simpl. do 3 f_equal. apply set_eq. intros k.
  rewrite !elem_of_difference, !elem_of_list_to_set, filter_keys,
    list_elem_of_filter.
  tauto.
Qed.

Lemma get_group_templates_missing_exact_witness :
  get_group_templates (settings_with [("fix_a", conn_a)]) (Some "fix_a")
    (Some {["A"; "B"]})
  = Raise (ImproperlyConfigured
             (no_template_msg
                ({["A"; "B"]}
                 ∖ list_to_set (dict_keys [("A", VList [VInt 1; VInt 2])])))).
Proof.
  eapply (get_group_templates_missing_exact (settings_with [("fix_a", conn_a)])
            [("fix_a", conn_a)] "fix_a").
  - reflexivity.
  - reflexivity.
  - reflexivity.
  - dict_wf_decide.
  - intros Hsub.
    assert (HB : "B" ∈ ({["A"; "B"]} : gset string))
      by (apply elem_of_union; right; by apply elem_of_singleton).
    apply Hsub, elem_of_list_to_set, list_elem_of_singleton in HB.
    discriminate HB.
Defined.

(** X13.  GROUP_TEMPLATES is only examined when identifiers are
    requested: a value that is not a dict is handed back as it is by a
    call without identifiers, and makes a call with identifiers fail with
    AttributeError. *)
Theorem get_group_templates_not_a_dict
    (self : Settings) (conns : list (string * pyval)) (name : string)
    (cfg : list (string * pyval)) (v : pyval) (ids : gset string) :
  attrs self !! "CONNECTIONS" = Some (VDict conns) →
  dict_get conns name = Some (VDict cfg) →
  dict_get cfg "GROUP_TEMPLATES" = Some v →
  (∀ d, v ≠ VDict d) →
  get_group_templates self (Some name) None = Ok v
  ∧ get_group_templates self (Some name) (Some ids)
    = Raise (AttributeError "items").
Proof.
  intros Hc Hname Hcfg Hnot.
  rewrite !(get_group_templates_named _ _ _ _ _ _ Hc Hname Hcfg).
  split; [done|]. destruct v; try done. by destruct (Hnot d).
Qed.

Lemma get_group_templates_not_a_dict_witness :
  get_group_templates
    (settings_with [("fix_e", VDict [("GROUP_TEMPLATES", VNone)])])
    (Some "fix_e") None = Ok VNone
  ∧ get_group_templates
      (settings_with [("fix_e", VDict [("GROUP_TEMPLATES", VNone)])])
      (Some "fix_e") (Some {["A"]})
    = Raise (AttributeError "items").
Proof.
  eapply (get_group_templates_not_a_dict
            (settings_with [("fix_e", VDict [("GROUP_TEMPLATES", VNone)])])
            [("fix_e", VDict [("GROUP_TEMPLATES", VNone)])] "fix_e").
  - reflexivity.
  - reflexivity.
  - reflexivity.
  - discriminate.
Defined.

(** *** Projection and the protocol cache, with the imports *)

Lemma World_eta (w : World) :
  {| settings := settings w; imported := imported w |} = w.
Proof. by destruct w. Qed.

Section ProjectionExtra.

Variable imp : string → Result module.

Lemma load_class_imports (p mod_name class_name : string) (c : pyval) (w : World) :
  rsplit_last_dot p = Some (mod_name, class_name) →
  resolve imp (VStr p) = Ok c →
  load_class imp (VStr p) w
  = (Ok c, {| settings := settings w; imported := imported w ++ [mod_name] |}).
Proof.
  intros Hsplit.
  unfold resolve, load_class, mbind, M_bind, Result_bind, lift, import,
    rsplit_dot, str_rsplit_dot.
  rewrite Hsplit. simpl.
  destruct (imp mod_name) as [md|]; [|done].
  destruct (module_getattr md class_name); [|done]. by intros [= ->].
Qed.

Lemma copy_setting_protocol_imports (this : SessionSettings)
    (p mod_name class_name : string) (c : pyval) (w : World) :
  rsplit_last_dot p = Some (mod_name, class_name) →
  resolve imp (VStr p) = Ok c →
  copy_setting imp this ("PROTOCOL", VStr p) w
  = (Ok {| session_attrs := <["PROTOCOL" := VStr p]> (session_attrs this) |},
     {| settings := with_protocol c (settings w);
        imported := imported w ++ [mod_name] |}).
Proof.
  intros Hsplit Hres. unfold copy_setting, mbind, M_bind. simpl.
  by rewrite (load_class_imports p mod_name class_name c w Hsplit Hres).
Qed.

Lemma for_in_protocol_imports (cfg : list (string * pyval))
    (this : SessionSettings) (p mod_name class_name : string) (c : pyval)
    (w : World) :
  dict_wf cfg →
  dict_get cfg "PROTOCOL" = Some (VStr p) →
  rsplit_last_dot p = Some (mod_name, class_name) →
  resolve imp (VStr p) = Ok c →
  for_in (copy_setting imp) this cfg w
  = (Ok (written this cfg),
     {| settings := with_protocol c (settings w);
        imported := imported w ++ [mod_name] |}).
Proof.
  revert this. induction cfg as [|[k x] cfg IH];
    intros this Hwf Hget Hsplit Hres; [done|].
  apply dict_wf_cons in Hwf as [Hk Hwf]. simpl in Hget.
  cbn [for_in]. unfold mbind, M_bind at 1.
  destruct (String.eqb_spec k "PROTOCOL") as [->|Hne].
  - injection Hget as ->.
    rewrite (copy_setting_protocol_imports this p mod_name class_name c w)
      by done.
    by rewrite for_in_without_protocol.
  - rewrite copy_setting_other by done. by apply IH.
Qed.

Lemma default_connection_single (w : World) (name : string) (conn : pyval) :
  attrs (settings w) !! "CONNECTIONS" = Some (VDict [(name, conn)]) →
  default_connection imp w = SessionSettings_populate imp name w.
Proof.
  intros Hc.
  unfold default_connection, mbind, M_bind at 1 2, the_settings, lift,
    default_connection_name, has_safe_defaults, CONNECTIONS.
  by rewrite Hc.
Qed.

Lemma default_connection_ambiguous (w : World) (conns : list (string * pyval)) :
  attrs (settings w) !! "CONNECTIONS" = Some (VDict conns) →
  length conns ≠ 1 →
  default_connection imp w = (Raise (ImproperlyConfigured ambiguous_msg), w).
Proof.
  intros Hc Hlen.
  unfold default_connection, mbind, M_bind at 1 2, the_settings, lift,
    default_connection_name, has_safe_defaults, CONNECTIONS.
  rewrite Hc. simpl. by destruct (Nat.eqb_spec (length conns) 1).
Qed.

End ProjectionExtra.

(** X14.  A projection that resolves its PROTOCOL: the view holds every
    parameter of the connection as configured (PROTOCOL as the string it
    was, not as a class), the class goes to the cache of [settings], and
    the protocol module is imported exactly once. *)
Theorem SessionSettings_init_with_protocol
    (imp : string → Result module) (w : World)
    (conns : list (string * pyval)) (name : string)
    (cfg : list (string * pyval)) (p mod_name class_name : string)
    (c : pyval) :
  attrs (settings w) !! "CONNECTIONS" = Some (VDict conns) →
  dict_get conns name = Some (VDict cfg) → dict_wf cfg →
  dict_get cfg "PROTOCOL" = Some (VStr p) →
  rsplit_last_dot p = Some (mod_name, class_name) →
  resolve imp (VStr p) = Ok c →
  ∃ view,
    SessionSettings_init imp (Some name) w
    = (Ok view, {| settings := with_protocol c (settings w);
                   imported := imported w ++ [mod_name] |})
    ∧ ∀ k, session_attrs view !! k = dict_get cfg k.
Proof.
  intros Hc Hname Hwf Hp Hsplit Hres.
  exists (written {| session_attrs := ∅ |} cfg). split.
  - rewrite init_named, (populate_run imp w conns name cfg) by done.
    by apply (for_in_protocol_imports imp cfg _ p mod_name class_name c w).
  - intros k. rewrite written_lookup by done. by destruct (dict_get cfg k).
Qed.

Lemma SessionSettings_init_with_protocol_witness :
  ∃ view,
    SessionSettings_init protocols (Some "fix_a")
      (start_world [("fix_a", conn_a); ("fix_b", conn_b)])
    = (Ok view,
       {| settings :=
            with_protocol (VClass "proto.fix44.Spec")
              (settings_with [("fix_a", conn_a); ("fix_b", conn_b)]);
          imported := ["proto.fix44"] |})
    ∧ session_attrs view !! "PROTOCOL" = Some (VStr "proto.fix44.Spec").
Proof.
  destruct (SessionSettings_init_with_protocol protocols
              (start_world [("fix_a", conn_a); ("fix_b", conn_b)])
              [("fix_a", conn_a); ("fix_b", conn_b)] "fix_a"
              _ "proto.fix44.Spec" "proto.fix44" "Spec"
              (VClass "proto.fix44.Spec")
              eq_refl eq_refl ltac:(dict_wf_decide) eq_refl eq_refl eq_refl)
    as (view & Hrun & Hview).
  exists view. split; [exact Hrun|]. by rewrite Hview.
Defined.

(** X15.  A projection that fails leaves [settings] as it was: an unknown
    connection name changes nothing at all, and a PROTOCOL that does not
    resolve leaves the cache and every other field of [settings]
    untouched. *)
Theorem SessionSettings_init_failure_keeps_settings
    (imp : string → Result module) (w : World)
    (conns : list (string * pyval)) (name : string) :
  attrs (settings w) !! "CONNECTIONS" = Some (VDict conns) →
  (dict_get conns name = None →
     (SessionSettings_init imp (Some name) w).2 = w)
  ∧ (∀ cfg v e,
       dict_get conns name = Some (VDict cfg) → dict_wf cfg →
       dict_get cfg "PROTOCOL" = Some v → resolve imp v = Raise e →
       settings (SessionSettings_init imp (Some name) w).2 = settings w).
Proof.
  intros Hc. split.
  - intros Hname. rewrite init_named.
    unfold SessionSettings_populate, mbind, M_bind, the_settings, lift,
      CONNECTIONS, dict_getitem.
    by rewrite Hc, Hname.
  - intros cfg v e Hname Hwf Hp Hres.
    rewrite init_named, (populate_run imp w conns name cfg) by done.
    by destruct (for_in_protocol_fail imp cfg {| session_attrs := ∅ |} v e w
                   Hwf Hp Hres) as (w' & -> & ?).
Qed.

Lemma SessionSettings_init_failure_keeps_settings_witness :
  (SessionSettings_init protocols (Some "fix_z")
     (start_world [("fix_a", conn_a); ("fix_d", conn_bad)])).2
  = start_world [("fix_a", conn_a); ("fix_d", conn_bad)]
  ∧ settings (SessionSettings_init protocols (Some "fix_d")
                (start_world [("fix_a", conn_a); ("fix_d", conn_bad)])).2
    = settings_with [("fix_a", conn_a); ("fix_d", conn_bad)].
Proof.
  pose proof (SessionSettings_init_failure_keeps_settings protocols
                (start_world [("fix_a", conn_a); ("fix_d", conn_bad)])
                [("fix_a", conn_a); ("fix_d", conn_bad)]) as H.
  split.
  - by apply (H "fix_z").
  - eapply (H "fix_d").
    + reflexivity.
    + reflexivity.
    + dict_wf_decide.
    + reflexivity.
    + reflexivity.
Defined.

(** X16.  The constructor without a name still publishes before it
    fails: with one connection whose PROTOCOL resolves, the call ends in
    TypeError after [default_connection] has put the class in the cache of
    [settings]. *)
Theorem SessionSettings_init_default_publishes
    (imp : string → Result module) (w : World) (name : string)
    (cfg : list (string * pyval)) (p mod_name class_name : string)
    (c : pyval) :
  attrs (settings w) !! "CONNECTIONS" = Some (VDict [(name, VDict cfg)]) →
  dict_wf cfg →
  dict_get cfg "PROTOCOL" = Some (VStr p) →
  rsplit_last_dot p = Some (mod_name, class_name) →
  resolve imp (VStr p) = Ok c →
  SessionSettings_init imp None w
  = (Raise (TypeError "'SessionSettings' object is not subscriptable"),
     {| settings := with_protocol c (settings w);
        imported := imported w ++ [mod_name] |}).
Proof.
  intros Hc Hwf Hp Hsplit Hres.
  assert (Hname : dict_get [(name, VDict cfg)] name = Some (VDict cfg))
    by (simpl; by rewrite String.eqb_refl).
  unfold SessionSettings_init, mbind, M_bind at 1 2.
  rewrite (default_connection_single imp w name _ Hc),
    (populate_run imp w _ name cfg Hc Hname),
    (for_in_protocol_imports imp cfg _ p mod_name class_name c w) by done.
  done.
Qed.

Lemma SessionSettings_init_default_publishes_witness :
  SessionSettings_init protocols None (start_world [("fix_a", conn_a)])
  = (Raise (TypeError "'SessionSettings' object is not subscriptable"),
     {| settings :=
          with_protocol (VClass "proto.fix44.Spec")
            (settings_with [("fix_a", conn_a)]);
        imported := ["proto.fix44"] |}).
Proof.
  apply (SessionSettings_init_default_publishes protocols
           (start_world [("fix_a", conn_a)]) "fix_a" _
           "proto.fix44.Spec" "proto.fix44" "Spec" (VClass "proto.fix44.Spec")
           eq_refl ltac:(dict_wf_decide) eq_refl eq_refl eq_refl).
Defined.

(** X17.  [default_connection] is the projection of the only connection:
    with one connection configured it does what the constructor does when
    given that name; with none or several, it and the constructor without
    a name raise the ImproperlyConfigured of [default_connection_name]
    and change nothing. *)
Theorem default_connection_spec
    (imp : string → Result module) (w : World)
    (conns : list (string * pyval)) :
  attrs (settings w) !! "CONNECTIONS" = Some (VDict conns) →
  (∀ name conn, conns = [(name, conn)] →
     default_connection imp w = SessionSettings_init imp (Some name) w)
  ∧ (length conns ≠ 1 →
     default_connection imp w
     = (Raise (ImproperlyConfigured ambiguous_msg), w)
     ∧ SessionSettings_init imp None w
       = (Raise (ImproperlyConfigured ambiguous_msg), w)).
Proof.
  intros Hc. split.
  - intros name conn ->. rewrite init_named.
    by apply default_connection_single with conn.
  - intros Hlen.
    pose proof (default_connection_ambiguous imp w conns Hc Hlen) as Hdc.
    split; [done|].
    unfold SessionSettings_init, mbind, M_bind at 1 2. by rewrite Hdc.
Qed.

Lemma default_connection_spec_witness :
  default_connection protocols (start_world [("fix_a", conn_a)])
  = SessionSettings_init protocols (Some "fix_a")
      (start_world [("fix_a", conn_a)])
  ∧ SessionSettings_init protocols None
      (start_world [("fix_a", conn_a); ("fix_b", conn_b)])
    = (Raise (ImproperlyConfigured ambiguous_msg),
       start_world [("fix_a", conn_a); ("fix_b", conn_b)]).
Proof.
  split.
  - by eapply (default_connection_spec protocols
                 (start_world [("fix_a", conn_a)]) [("fix_a", conn_a)]).
  - eapply (default_connection_spec protocols
              (start_world [("fix_a", conn_a); ("fix_b", conn_b)])
              [("fix_a", conn_a); ("fix_b", conn_b)]); [reflexivity|].
    simpl. lia.
Defined.

(** *** Reading the protocol cache *)

(** X18.  A first read of [active_protocol] on an empty cache, with one
    connection whose PROTOCOL resolves to a class: the class is returned
    and cached, and its module has been imported twice, once by the
    projection of the default connection and once by the getter itself.
    A second read returns the same class and imports nothing. *)
Theorem active_protocol_lazy
    (imp : string → Result module) (w : World) (name : string)
    (cfg : list (string * pyval)) (p mod_name class_name : string)
    (c : pyval) :
  _active_protocol (settings w) = VNone →
  attrs (settings w) !! "CONNECTIONS" = Some (VDict [(name, VDict cfg)]) →
  dict_wf cfg →
  dict_get cfg "PROTOCOL" = Some (VStr p) →
  rsplit_last_dot p = Some (mod_name, class_name) →
  resolve imp (VStr p) = Ok c →
  c ≠ VNone →
  active_protocol imp w
  = (Ok c, {| settings := with_protocol c (settings w);
              imported := imported w ++ [mod_name; mod_name] |})
  ∧ active_protocol imp
      {| settings := with_protocol c (settings w);
         imported := imported w ++ [mod_name; mod_name] |}
    = (Ok c, {| settings := with_protocol c (settings w);
                imported := imported w ++ [mod_name; mod_name] |}).
Proof.
  intros Hcache Hc Hwf Hp Hsplit Hres HcNone.
  assert (Hname : dict_get [(name, VDict cfg)] name = Some (VDict cfg))
    by (simpl; by rewrite String.eqb_refl).
  split.
  - unfold active_protocol, mbind, M_bind at 1, the_settings.
    rewrite Hcache. unfold mbind, M_bind at 1.
    rewrite (default_connection_single imp w name _ Hc),
      (populate_run imp w _ name cfg Hc Hname),
      (for_in_protocol_imports imp cfg _ p mod_name class_name c w) by done.
    unfold mbind, M_bind at 1, lift, getattr.
    rewrite written_lookup, Hp by done.
    unfold mbind, M_bind at 1.
    rewrite (load_class_imports imp p mod_name class_name c) by done.
    simpl. by rewrite <- app_assoc.
  - unfold active_protocol, mbind, M_bind at 1, the_settings. simpl.
    by destruct c.
Qed.

Lemma active_protocol_lazy_witness :
  active_protocol protocols (start_world [("fix_a", conn_a)])
  = (Ok (VClass "proto.fix44.Spec"),
     {| settings :=
          with_protocol (VClass "proto.fix44.Spec")
            (settings_with [("fix_a", conn_a)]);
        imported := ["proto.fix44"; "proto.fix44"] |}).
Proof.
  apply (active_protocol_lazy protocols (start_world [("fix_a", conn_a)])
           "fix_a" _ "proto.fix44.Spec" "proto.fix44" "Spec"
           (VClass "proto.fix44.Spec")
           eq_refl eq_refl ltac:(dict_wf_decide) eq_refl eq_refl eq_refl).
  discriminate.
Defined.

(** X19.  A read of [active_protocol] on an empty cache that cannot
    resolve leaves the cache empty: with none or several connections it
    raises the ImproperlyConfigured of [default_connection_name], and with
    one connection that has no PROTOCOL it raises AttributeError; the
    state is unchanged in both cases. *)
Theorem active_protocol_unresolved
    (imp : string → Result module) (w : World)
    (conns : list (string * pyval)) :
  _active_protocol (settings w) = VNone →
  attrs (settings w) !! "CONNECTIONS" = Some (VDict conns) →
  (length conns ≠ 1 →
     active_protocol imp w = (Raise (ImproperlyConfigured ambiguous_msg), w))
  ∧ (∀ name cfg, conns = [(name, VDict cfg)] → dict_wf cfg →
       dict_get cfg "PROTOCOL" = None →
       active_protocol imp w = (Raise (AttributeError "PROTOCOL"), w)).
Proof.
  intros Hcache Hc. split.
  - intros Hlen.
    unfold active_protocol, mbind, M_bind at 1, the_settings.
    rewrite Hcache. unfold mbind, M_bind at 1.
    by rewrite (default_connection_ambiguous imp w conns Hc Hlen).
  - intros name cfg -> Hwf Hp.
    assert (Hname : dict_get [(name, VDict cfg)] name = Some (VDict cfg))
      by (simpl; by rewrite String.eqb_refl).
    assert (Hno : "PROTOCOL" ∉ dict_keys cfg).
    { intros Hin. apply dict_get_bound in Hin as [v Hv]. congruence. }
    unfold active_protocol, mbind, M_bind at 1, the_settings.
    rewrite Hcache. unfold mbind, M_bind at 1.
    rewrite (default_connection_single imp w name _ Hc),
      (populate_run imp w _ name cfg Hc Hname),
      for_in_without_protocol by done.
    unfold mbind, M_bind at 1, lift, getattr.
    rewrite written_lookup, Hp by done. cbn [session_attrs].
    by rewrite lookup_empty.
Qed.

Lemma active_protocol_unresolved_witness :
  active_protocol protocols (start_world [("fix_a", conn_a); ("fix_b", conn_b)])
  = (Raise (ImproperlyConfigured ambiguous_msg),
     start_world [("fix_a", conn_a); ("fix_b", conn_b)])
  ∧ active_protocol protocols (start_world [("fix_c", conn_plain)])
    = (Raise (AttributeError "PROTOCOL"), start_world [("fix_c", conn_plain)]).
Proof.
  split.
  - eapply (active_protocol_unresolved protocols
              (start_world [("fix_a", conn_a); ("fix_b", conn_b)])
              [("fix_a", conn_a); ("fix_b", conn_b)]);
      [reflexivity|reflexivity|].
    simpl. lia.
  - eapply (active_protocol_unresolved protocols
              (start_world [("fix_c", conn_plain)]) [("fix_c", conn_plain)]).
    + reflexivity.
    + reflexivity.
    + reflexivity.
    + dict_wf_decide.
    + reflexivity.
Defined.

(** The setter of [active_protocol] decides the next read: after
    [settings.active_protocol = c], with [c] a class, the getter returns
    [c] without looking at CONNECTIONS and without importing anything,
    whatever is configured. *)
Theorem active_protocol_set_then_read
    (imp : string → Result module) (w : World) (c : pyval) :
  c ≠ VNone →
  (set_active_protocol c ≫= λ _, active_protocol imp) w
  = (Ok c, {| settings := with_protocol c (settings w);
              imported := imported w |}).
Proof.
  intros Hc. unfold mbind, M_bind at 1, set_active_protocol.
  unfold active_protocol, mbind, M_bind at 1, the_settings. simpl.
  by destruct c.
Qed.

Lemma active_protocol_set_then_read_witness :
  (set_active_protocol (VClass "proto.fix50.Spec")
     ≫= λ _, active_protocol protocols) (start_world [])
  = (Ok (VClass "proto.fix50.Spec"),
     {| settings := with_protocol (VClass "proto.fix50.Spec") (settings_with []);
        imported := [] |}).
Proof.
  apply (active_protocol_set_then_read protocols (start_world [])).
  discriminate.
Defined.

(** X20.  Reading [active_protocol] or [default_connection] changes no
    field of [settings] but the protocol cache, whether the read succeeds
    or raises. *)
Theorem active_protocol_frame (imp : string → Result module) (w : World) :
  frame w (active_protocol imp w).2 ∧ frame w (default_connection imp w).2.
Proof.
  split; [|apply framed_default_connection].
  revert w. change (framed (active_protocol imp)).
  unfold active_protocol.
  apply framed_bind; [apply framed_the_settings|intros self].
  destruct (_active_protocol self); try apply framed_ret.
  apply framed_bind; [apply framed_default_connection|intros dc].
  apply framed_bind; [apply framed_lift|intros protocol].
  apply framed_bind; [apply framed_load_class|intros protocol_class].
  apply framed_bind; [apply framed_set_active_protocol|intros _].
  apply framed_bind; [apply framed_the_settings|intros self'].
  apply framed_ret.
Qed.

(** *** The logger *)

Lemma logger_run
    (getLogger : pyval → Result string) (w : World) (v : pyval) (l : string) :
  _logger (settings w) = None →
  attrs (settings w) !! "LOGGER" = Some v →
  getLogger v = Ok l →
  logger getLogger w
  = (Ok (Some l), {| settings := with_logger (Some l) (settings w);
                     imported := imported w |}).
Proof.
  intros Hnone Hattr Hget.
  unfold logger, mbind, M_bind, the_settings, lift, getattr, set_logger.
  by rewrite Hnone, Hattr, Hget.
Qed.

(** X21.  The logger is created on first use and then kept: with no
    logger yet, a read asks [logging.getLogger] for the logger named by
    LOGGER, stores it and returns it; every later read returns that same
    logger without calling [getLogger] again. *)
Theorem logger_lazy
    (getLogger : pyval → Result string) (w : World) (v : pyval) (l : string) :
  _logger (settings w) = None →
  attrs (settings w) !! "LOGGER" = Some v →
  getLogger v = Ok l →
  logger getLogger w
  = (Ok (Some l), {| settings := with_logger (Some l) (settings w);
                     imported := imported w |})
  ∧ ∀ getLogger',
      logger getLogger'
        {| settings := with_logger (Some l) (settings w);
           imported := imported w |}
      = (Ok (Some l), {| settings := with_logger (Some l) (settings w);
                         imported := imported w |}).
Proof.
  intros Hnone Hattr Hget. split.
  - unfold logger, mbind, M_bind, the_settings, lift, getattr, set_logger.
    by rewrite Hnone, Hattr, Hget.
  - intros g. reflexivity.
Qed.

Lemma logger_lazy_witness :
  logger (λ _, Ok "wtfix")
    {| settings :=
         {| _logger := None; attrs := {["LOGGER" := VStr "wtfix"]};
            _explicit_settings := ∅; _active_protocol := VNone |};
       imported := [] |}
  = (Ok (Some "wtfix"),
     {| settings :=
          with_logger (Some "wtfix")
            {| _logger := None; attrs := {["LOGGER" := VStr "wtfix"]};
               _explicit_settings := ∅; _active_protocol := VNone |};
        imported := [] |}).
Proof.
  by apply (logger_lazy (λ _, Ok "wtfix")
              {| settings :=
                   {| _logger := None; attrs := {["LOGGER" := VStr "wtfix"]};
                      _explicit_settings := ∅; _active_protocol := VNone |};
                 imported := [] |} (VStr "wtfix") "wtfix").
Defined.

(** A first read of the logger that fails stores nothing: without a
    LOGGER setting it raises AttributeError, and when [logging.getLogger]
    raises, its exception comes out; the state is unchanged and the next
    read tries again. *)
Theorem logger_failure
    (getLogger : pyval → Result string) (w : World) :
  _logger (settings w) = None →
  (attrs (settings w) !! "LOGGER" = None →
     logger getLogger w = (Raise (AttributeError "LOGGER"), w))
  ∧ (∀ v e, attrs (settings w) !! "LOGGER" = Some v → getLogger v = Raise e →
       logger getLogger w = (Raise e, w)).
Proof.
  intros Hnone. split.
  - intros Hattr.
    unfold logger, mbind, M_bind, the_settings, lift, getattr.
    by rewrite Hnone, Hattr.
  - intros v e Hattr Hget.
    unfold logger, mbind, M_bind, the_settings, lift, getattr.
    by rewrite Hnone, Hattr, Hget.
Qed.

Lemma logger_failure_witness :
  logger (λ _, Ok "wtfix") (start_world [])
  = (Raise (AttributeError "LOGGER"), start_world []).
Proof.
  by apply (logger_failure (λ _, Ok "wtfix") (start_world [])).
Defined.

End ConfExtra.

(* ===================================================================== *)
(** ** More on the launcher *)
(* ===================================================================== *)

Module RunClientExtra.
Import Py RunClient Samples RunClientFacts.

(** *** Counting events *)

Lemma start_attempts_app (tr tr' : list event) :
  start_attempts (tr ++ tr') = start_attempts tr + start_attempts tr'.
Proof. unfold start_attempts. by rewrite filter_app, length_app. Qed.

Lemma log_lines_app (tr tr' : list event) :
  log_lines (tr ++ tr') = log_lines tr + log_lines tr'.
Proof. unfold log_lines. by rewrite filter_app, length_app. Qed.

Lemma handlers_quiet (rt : Runtime) (names : list string) :
  start_attempts (add_signal_handlers rt names).1 = 0
  ∧ log_lines (add_signal_handlers rt names).1 = 0.
Proof.
  induction names as [|sig_name names [IH1 IH2]]; [done|].
  cbn [add_signal_handlers].
  rewrite !trace_bind, !start_attempts_app, !log_lines_app. simpl.
  destruct (add_signal_handler rt sig_name) as [[]|e]; simpl; [|done].
  by rewrite IH1, IH2.
Qed.

Lemma handlers_installed (rt : Runtime) (names : list string) :
  (∀ s, s ∈ names → add_signal_handler rt s = Ok tt) →
  add_signal_handlers rt names = (AddSignalHandler <$> names, Ok tt).
Proof.
  induction names as [|sig_name names IH]; intros Hall; [done|].
  cbn [add_signal_handlers]. unfold mbind, T_bind, emit, outcome.
  rewrite (Hall sig_name) by left.
  rewrite IH by (intros s Hs; apply Hall; by right). done.
Qed.

Lemma handlers_refused (rt : Runtime) (names : list string) (s : string) (e : exn) :
  s ∈ names → add_signal_handler rt s = Raise e →
  ∃ e', (add_signal_handlers rt names).2 = Raise e'.
Proof.
  induction names as [|sig_name names IH]; intros Hin Hs; [inversion Hin|].
  cbn [add_signal_handlers]. unfold mbind, T_bind, emit, outcome.
  destruct (add_signal_handler rt sig_name) as [[]|e1] eqn:E; [|by eexists].
  apply elem_of_cons in Hin as [->|Hin]; [congruence|].
  destruct (IH Hin Hs) as [e' He'].
  destruct (add_signal_handlers rt names) as [tr r]. simpl in *. subst r.
  by eexists.
Qed.

Lemma except_clauses_quiet (e : exn) (handler : T unit) :
  except_clauses e = Some handler →
  start_attempts handler.1 = 0 ∧ log_lines handler.1 = 1
  ∧ (handler.2 = Raise (SystemExit EX_OK)
     ∨ handler.2 = Raise (SystemExit EX_UNAVAILABLE)).
Proof.
  destruct e; simpl; intros H; simplify_eq; simpl; auto.
Qed.

Lemma except_clauses_None (e : exn) :
  except_clauses e = None → ∃ code, e = SystemExit code.
Proof. destruct e; simpl; intros H; try done. by eexists. Qed.

Lemma cleanup_quiet (rt : Runtime) :
  start_attempts (cleanup rt).1 = 0
  ∧ log_lines (cleanup rt).1
    = match stop_result rt with
      | Raise (CancelledError _) => 1
      | _ => 0
      end.
Proof.
  unfold cleanup, try_except, mbind, T_bind, emit, outcome. simpl.
  destruct (stop_result rt) as [[]|e]; [done|]. by destruct e.
Qed.

Lemma try_body_split (rt : Runtime) :
  (try_body rt).1
  = (add_signal_handlers rt (signal_names rt)).1
    ++ match (add_signal_handlers rt (signal_names rt)).2 with
       | Ok _ => [PipelineStart]
       | Raise _ => []
       end
  ∧ (try_body rt).2
    = match (add_signal_handlers rt (signal_names rt)).2 with
      | Ok _ => start_result rt
      | Raise e => Raise e
      end.
Proof.
  unfold try_body, mbind, T_bind, emit, outcome.
  destruct (add_signal_handlers rt (signal_names rt)) as [tr [[]|e]]; simpl;
    [|by rewrite app_nil_r].
  by destruct (start_result rt).
Qed.

Lemma guarded_split (rt : Runtime) :
  (guarded rt).1
  = (try_body rt).1
    ++ match (try_body rt).2 with
       | Ok _ => []
       | Raise e =>
           match except_clauses e with
           | Some handler => handler.1
           | None => []
           end
       end.
Proof.
  unfold guarded, try_except. destruct (try_body rt) as [tr [a|e]]; simpl.
  - by rewrite app_nil_r.
  - destruct (except_clauses e) as [[tr' r]|]; simpl; [done|].
    by rewrite app_nil_r.
Qed.

(** *** The block, path by path *)

(** X22.  The uneventful run: when the loop accepts every signal handler
    and both the start and the cleanup stop return, the block installs the
    handlers in the order of iteration, starts the pipeline, stops it,
    logs nothing, and the process exits with status 0. *)
Theorem main_block_normal_completion (rt : Runtime) :
  (∀ s, s ∈ signal_names rt → add_signal_handler rt s = Ok tt) →
  start_result rt = Ok tt →
  stop_result rt = Ok tt →
  main_block rt
  = ((AddSignalHandler <$> signal_names rt) ++ [PipelineStart; PipelineStop],
     Ok tt)
  ∧ launch rt = Exited 0.
Proof.
  intros Hall Hstart Hstop.
  assert (Hmain : main_block rt
    = ((AddSignalHandler <$> signal_names rt) ++ [PipelineStart; PipelineStop],
       Ok tt)).
  { unfold main_block, try_finally, guarded, try_except, try_body, cleanup,
      mbind, T_bind, emit, outcome.
    rewrite (handlers_installed rt _ Hall), Hstart, Hstop. simpl.
    by rewrite <- app_assoc. }
  split; [done|]. unfold launch. by rewrite Hmain.
Qed.

Lemma main_block_normal_completion_witness :
  main_block (runtime_of (Ok tt) (Ok tt))
  = ([AddSignalHandler "SIGINT"; AddSignalHandler "SIGTERM";
      PipelineStart; PipelineStop], Ok tt)
  ∧ launch (runtime_of (Ok tt) (Ok tt)) = Exited 0.
Proof.
  by apply (main_block_normal_completion (runtime_of (Ok tt) (Ok tt))).
Defined.

(** X23.  The pipeline is started at most once, and only after every
    signal handler is in place: when the loop accepts all of them the
    block makes one start attempt; when it refuses one, the start is never
    attempted, and the cleanup still makes its stop attempt. *)
Theorem start_needs_signal_handlers (rt : Runtime) :
  ((∀ s, s ∈ signal_names rt → add_signal_handler rt s = Ok tt) →
     start_attempts (main_block rt).1 = 1)
  ∧ (∀ s e, s ∈ signal_names rt → add_signal_handler rt s = Raise e →
       start_attempts (main_block rt).1 = 0
       ∧ stop_attempts (main_block rt).1 = 1).
Proof.
  destruct (main_block_split rt) as [Htr _].
  destruct (try_body_split rt) as [Hbody Hres].
  destruct (handlers_quiet rt (signal_names rt)) as [Hquiet _].
  destruct (cleanup_quiet rt) as [Hcleanup _].
  assert (Hclause : ∀ r : Result unit, start_attempts
            match r with
            | Ok _ => []
            | Raise e =>
                match except_clauses e with
                | Some handler => handler.1
                | None => []
                end
            end = 0).
  { intros [a|e]; [done|].
    destruct (except_clauses e) as [h|] eqn:E; [|done].
    by apply except_clauses_quiet in E as [? _]. }
  split.
  - intros Hall.
    rewrite Htr, guarded_split, Hbody, !start_attempts_app, Hquiet, Hclause,
      Hcleanup.
    by rewrite (handlers_installed rt _ Hall).
  - intros s e Hs He.
    destruct (handlers_refused rt _ s e Hs He) as [e' He'].
    split.
    + rewrite Htr, guarded_split, Hbody, !start_attempts_app, Hquiet, Hclause,
        Hcleanup.
      by rewrite He'.
    + destruct (cleanup_trace rt) as (after & Hafter & Hnone).
      rewrite Htr, stop_attempts_app, guarded_no_stop, Hafter.
      unfold stop_attempts in *. rewrite filter_cons. simpl. by rewrite Hnone.
Qed.

Lemma start_needs_signal_handlers_witness :
  start_attempts (main_block (runtime_of (Ok tt) (Ok tt))).1 = 1
  ∧ start_attempts
      (main_block
         {| signal_names := ["SIGINT"; "SIGTERM"];
            add_signal_handler := λ _, Raise (OtherException "NotImplementedError" "");
            start_result := Ok tt; stop_result := Ok tt |}).1 = 0.
Proof.
  split.
  - by apply (start_needs_signal_handlers (runtime_of (Ok tt) (Ok tt))).
  - eapply (start_needs_signal_handlers
              {| signal_names := ["SIGINT"; "SIGTERM"];
                 add_signal_handler :=
                   λ _, Raise (OtherException "NotImplementedError" "");
                 start_result := Ok tt; stop_result := Ok tt |} ).
    + left.
    + reflexivity.
Defined.

(** X24.  A cleanup stop that fails with anything but CancelledError is
    caught by nothing: its exception replaces whatever the guarded block
    had decided, so the process ends with that exception (a traceback, or
    the status of a SystemExit) and not with a status of the mapping. *)
Theorem cleanup_failure_escapes (rt : Runtime) (e : exn) :
  stop_result rt = Raise e →
  (∀ msg, e ≠ CancelledError msg) →
  (main_block rt).2 = Raise e ∧ launch rt = terminate (Raise e).
Proof.
  intros Hstop Hnot. destruct (main_block_split rt) as [_ Hout].
  assert (Hc : (cleanup rt).2 = Raise e).
  { unfold cleanup, try_except, mbind, T_bind, emit, outcome.
    rewrite Hstop. simpl. destruct e; try done. by destruct (Hnot msg). }
  unfold launch. by rewrite Hout, Hc.
Qed.

Lemma cleanup_failure_escapes_witness :
  launch (runtime_of (Raise (ImproperlyConfigured "no such connection"))
                     (Raise (OtherException "OSError" "broken pipe")))
  = Traceback (OtherException "OSError" "broken pipe").
Proof.
  destruct (cleanup_failure_escapes
              (runtime_of (Raise (ImproperlyConfigured "no such connection"))
                          (Raise (OtherException "OSError" "broken pipe")))
              (OtherException "OSError" "broken pipe") eq_refl)
    as [_ Hlaunch]; [discriminate|exact Hlaunch].
Defined.

(** X25.  The only [sys.exit] codes of the block's own are EX_OK and
    EX_UNAVAILABLE: when the block ends with SystemExit(code) for any
    other code, that SystemExit was raised by the guarded calls or by the
    cleanup stop and passed through. *)
Theorem sys_exit_codes (rt : Runtime) (code : Z) :
  (main_block rt).2 = Raise (SystemExit code) →
  code = EX_OK ∨ code = EX_UNAVAILABLE
  ∨ (try_body rt).2 = Raise (SystemExit code)
  ∨ stop_result rt = Raise (SystemExit code).
Proof.
  destruct (main_block_split rt) as [_ Hout].
  pose proof (guarded_outcome rt) as Hg.
  rewrite Hout.
  unfold cleanup, try_except, mbind, T_bind, emit, outcome. simpl.
  destruct (stop_result rt) as [[]|e'] eqn:Hstop; simpl.
  - rewrite Hg. destruct (try_body rt).2 as [[]|e] eqn:Hbody; [done|].
    destruct (except_clauses e) as [h|] eqn:E.
    + apply except_clauses_quiet in E as (_ & _ & [-> | ->]);
        intros [= <-]; auto.
    + apply except_clauses_None in E as [c ->]. intros [= <-]. auto.
  - destruct e'; simpl; intros H; simplify_eq; auto.
Qed.

Lemma sys_exit_codes_witness :
  (2 : Z) = EX_OK ∨ (2 : Z) = EX_UNAVAILABLE
  ∨ (try_body (runtime_of (Raise (SystemExit 2)) (Ok tt))).2
    = Raise (SystemExit 2)
  ∨ stop_result (runtime_of (Raise (SystemExit 2)) (Ok tt))
    = Raise (SystemExit 2).
Proof.
  by apply (sys_exit_codes (runtime_of (Raise (SystemExit 2)) (Ok tt)) 2).
Defined.

(** X26.  One log line per handled failure: the block logs once for an
    exception of the guarded calls that one of its [except] clauses
    handles, once more when the cleanup stop is cancelled, and never
    otherwise. *)
Theorem log_lines_count (rt : Runtime) :
  log_lines (main_block rt).1
  = match (try_body rt).2 with
    | Ok _ => 0
    | Raise e => match except_clauses e with Some _ => 1 | None => 0 end
    end
    + match stop_result rt with
      | Raise (CancelledError _) => 1
      | _ => 0
      end.
Proof.
  destruct (main_block_split rt) as [Htr _].
  destruct (try_body_split rt) as [Hbody _].
  destruct (handlers_quiet rt (signal_names rt)) as [_ Hquiet].
  destruct (cleanup_quiet rt) as [_ Hcleanup].
  rewrite Htr, guarded_split, !log_lines_app, Hcleanup.
  assert (Hb : log_lines (try_body rt).1 = 0).
  { rewrite Hbody, log_lines_app, Hquiet.
    by destruct (add_signal_handlers rt (signal_names rt)).2. }
  rewrite Hb. f_equal. simpl.
  destruct (try_body rt).2 as [a|e]; [done|].
  destruct (except_clauses e) as [h|] eqn:E; [|done].
  by apply except_clauses_quiet in E as (_ & -> & _).
Qed.

(** *** The signal handler *)

(** A run of [graceful_shutdown] asks the pipeline to stop exactly
    once, and calls [task.cancel()] only when the awaited stop has
    returned.  It ends with SystemExit(EX_UNAVAILABLE) exactly when its
    [try] body ends in CancelledError; any other outcome of the body,
    normal or not, is the outcome of the handler. *)
Theorem graceful_shutdown_spec (sh : Shutdown) (sig_name_ : string) :
  activity_stops (graceful_shutdown sh sig_name_).1 = 1
  ∧ (TaskCancel ∈ (graceful_shutdown sh sig_name_).1 ↔ await_stop sh = Ok tt)
  ∧ (∀ msg, (shutdown_body sh).2 = Raise (CancelledError msg) →
       (graceful_shutdown sh sig_name_).2 = Raise (SystemExit EX_UNAVAILABLE))
  ∧ ((∀ msg, (shutdown_body sh).2 ≠ Raise (CancelledError msg)) →
       (graceful_shutdown sh sig_name_).2 = (shutdown_body sh).2).
Proof.
  unfold graceful_shutdown, shutdown_body.
  destruct sh as [[[]|e] [[]|e']]; try destruct e; try destruct e'; simpl;
    (split; [done|split; [|split]]);
    try (intros; discriminate);
    try (intros H; first [done | exfalso; by eapply H]);
    try (split; [done|intros _; rewrite !elem_of_cons; auto]);
    try (split; [|intros; discriminate];
         rewrite ?elem_of_app, !elem_of_cons, !elem_of_nil;
         intros Hin; exfalso; intuition discriminate).
Qed.

Lemma graceful_shutdown_spec_witness :
  (graceful_shutdown
     {| await_stop := Raise (CancelledError "timed out"); cancel_task := Ok tt |}
     "SIGTERM").2
  = Raise (SystemExit EX_UNAVAILABLE)
  ∧ (graceful_shutdown
       {| await_stop := Raise (OtherException "OSError" "reset");
          cancel_task := Ok tt |} "SIGTERM").2
    = Raise (OtherException "OSError" "reset").
Proof.
  split.
  - destruct (graceful_shutdown_spec
                {| await_stop := Raise (CancelledError "timed out");
                   cancel_task := Ok tt |} "SIGTERM")
      as (_ & _ & Hcancel & _).
    by apply (Hcancel "timed out").
  - destruct (graceful_shutdown_spec
                {| await_stop := Raise (OtherException "OSError" "reset");
                   cancel_task := Ok tt |} "SIGTERM")
      as (_ & _ & _ & Hother).
    apply Hother. discriminate.
Defined.

(** X27.  Nothing deduplicates the stop.  When a signal handler runs
    during a launch, the pipeline is asked to stop twice, once by the
    handler and once by the cleanup of the block, in whatever order the
    events of the two interleave. *)
Theorem stop_is_not_deduplicated
    (rt : Runtime) (sh : Shutdown) (sig_name_ : string)
    (tr : list activity) :
  tr ≡ₚ (Act <$> (main_block rt).1) ++ (graceful_shutdown sh sig_name_).1 →
  activity_stops tr = 2.
Proof.
  intros Hperm. unfold activity_stops. rewrite Hperm.
  rewrite filter_app, length_app.
  change (activity_stops (Act <$> (main_block rt).1)
          + activity_stops (graceful_shutdown sh sig_name_).1 = 2).
  rewrite activity_stops_Act.
  by rewrite main_block_stops_once, graceful_shutdown_stops_once.
Qed.

Lemma stop_is_not_deduplicated_witness :
  activity_stops
    ((Act <$> (main_block (runtime_of (Ok tt) (Ok tt))).1)
     ++ (graceful_shutdown {| await_stop := Ok tt; cancel_task := Ok tt |}
           "SIGINT").1)
  = 2.
Proof.
  apply (stop_is_not_deduplicated (runtime_of (Ok tt) (Ok tt))
           {| await_stop := Ok tt; cancel_task := Ok tt |} "SIGINT").
  reflexivity.
Defined.

(** *** The script around the block *)

(** X28.  The default of [--connection]: the name of the only configured
    connection, and [None] when none or several are configured, the
    ImproperlyConfigured of [default_connection_name] being swallowed.
    Any other failure is not: without a CONNECTIONS setting the
    AttributeError comes out. *)
Theorem connection_default_spec (self : Conf.Settings) :
  (∀ conns, Conf.attrs self !! "CONNECTIONS" = Some (VDict conns) →
     connection_default self
     = Ok match conns with
          | [(name, _)] => Some name
          | _ => None
          end)
  ∧ (Conf.attrs self !! "CONNECTIONS" = None →
     connection_default self = Raise (AttributeError "CONNECTIONS")).
Proof.
  split.
  - intros conns Hc.
    unfold connection_default, Conf.default_connection_name,
      Conf.has_safe_defaults, Conf.CONNECTIONS.
    rewrite Hc. by destruct conns as [|[name cfg] [|? ?]].
  - intros Hc.
    unfold connection_default, Conf.default_connection_name,
      Conf.has_safe_defaults, Conf.CONNECTIONS.
    by rewrite Hc.
Qed.

Lemma connection_default_spec_witness :
  connection_default (settings_with [("fix_a", conn_a)]) = Ok (Some "fix_a")
  ∧ connection_default (settings_with [("fix_a", conn_a); ("fix_b", conn_b)])
    = Ok None.
Proof.
  split.
  - destruct (connection_default_spec (settings_with [("fix_a", conn_a)]))
      as [Hdict _].
    exact (Hdict [("fix_a", conn_a)] eq_refl).
  - destruct (connection_default_spec
                (settings_with [("fix_a", conn_a); ("fix_b", conn_b)]))
      as [Hdict _].
    exact (Hdict [("fix_a", conn_a); ("fix_b", conn_b)] eq_refl).
Defined.

Lemma Settings_init_not_configured (gs : module)
    (imp : string → Result module) (environ : gmap string string) :
  environ !! Conf.ENVIRONMENT_VARIABLE = None
  ∨ environ !! Conf.ENVIRONMENT_VARIABLE = Some "" →
  Conf.Settings_init gs imp environ None
  = Raise (ImproperlyConfigured Conf.not_configured_msg).
Proof.
  intros Henv. unfold Conf.Settings_init, Conf.settings_module_name.
  by destruct Henv as [-> | ->].
Qed.

(** X29.  A missing settings module is not mapped to an exit status.
    When WTFIX_SETTINGS_MODULE is unset or empty, the script fails while
    importing [wtfix.conf], before the guarded block exists: the process
    ends with the ImproperlyConfigured as an uncaught exception, having
    installed no handler and made no start or stop attempt. *)
Theorem script_without_settings_module (p : Process) :
  environ p !! Conf.ENVIRONMENT_VARIABLE = None
  ∨ environ p !! Conf.ENVIRONMENT_VARIABLE = Some "" →
  script p = ([], Raise (ImproperlyConfigured Conf.not_configured_msg))
  ∧ terminate (script p).2
    = Traceback (ImproperlyConfigured Conf.not_configured_msg).
Proof.
  intros Henv.
  assert (Hs : script p
               = ([], Raise (ImproperlyConfigured Conf.not_configured_msg))).
  { unfold script, prelude.
    by rewrite (Settings_init_not_configured _ _ _ Henv). }
  split; [done|]. by rewrite Hs.
Qed.

Lemma script_without_settings_module_witness :
  terminate
    (script (sample_process ∅ None (λ _ _, Ok (runtime_of (Ok tt) (Ok tt))))).2
  = Traceback (ImproperlyConfigured Conf.not_configured_msg).
Proof.
  apply (script_without_settings_module
           (sample_process ∅ None (λ _ _, Ok (runtime_of (Ok tt) (Ok tt))))).
  by left.
Defined.

(** X30.  Which pipeline the script builds.  Once the settings are
    resolved and logging is set up, [BasePipeline] is called with the
    connection given on the command line, or else with the only
    configured connection, or else (none or several configured) with
    [None]; the block then runs on the pipeline it returns, and an
    exception of the constructor ends the script with no stop attempt. *)
Theorem script_builds_pipeline
    (p : Process) (self : Conf.Settings) (conns : list (string * pyval))
    (logger_name level : pyval) (l : string) :
  Conf.Settings_init (global_settings p) (import_module p) (environ p) None
  = Ok self →
  Conf.attrs self !! "LOGGER" = Some logger_name →
  getLogger p logger_name = Ok l →
  Conf.attrs self !! "CONNECTIONS" = Some (VDict conns) →
  Conf.attrs self !! "LOGGING_LEVEL" = Some level →
  basicConfig p level = Ok tt →
  script p
  = match BasePipeline p
            match arg_connection p with
            | Some name => Some name
            | None => match conns with
                      | [(name, _)] => Some name
                      | _ => None
                      end
            end
            (arg_new_session p) with
    | Ok rt => main_block rt
    | Raise e => ([], Raise e)
    end.
Proof.
  intros Hinit Hlogger Hget Hc Hlevel Hbasic.
  destruct (ConfExtra.Settings_init_Ok_inv _ _ _ _ _ Hinit)
    as (name0 & mod0 & ns0 & _ & _ & _ & _ & Hnone & _).
  pose proof (ConfExtra.logger_run (getLogger p)
                {| Conf.settings := self; Conf.imported := [] |}
                logger_name l Hnone Hlogger Hget) as Hrun.
  unfold script, prelude. rewrite Hinit. cbn [mbind Result_bind].
  rewrite Hrun. cbn [mbind Result_bind Conf.settings Conf.with_logger Conf.attrs].
  unfold connection_default, Conf.default_connection_name,
    Conf.has_safe_defaults, Conf.CONNECTIONS.
  change (Conf.attrs (Conf.with_logger (Some l) self)) with (Conf.attrs self).
  rewrite Hc. unfold getattr. rewrite Hlevel.
  unfold args_connection, mbind, Result_bind, mret, Result_ret.
  by destruct conns as [|[name cfg] [|? ?]]; simpl; rewrite Hbasic.
Qed.

Lemma script_builds_pipeline_witness :
  script (sample_process {[Conf.ENVIRONMENT_VARIABLE := "conf"]} None
            sample_pipeline)
  = main_block (runtime_of (Ok tt) (Ok tt))
  ∧ script (sample_process {[Conf.ENVIRONMENT_VARIABLE := "conf"]}
              (Some "fix_q") sample_pipeline)
    = ([], Raise (KeyError "fix_q")).
Proof.
  split.
  - eapply eq_trans.
    + eapply (script_builds_pipeline
                (sample_process {[Conf.ENVIRONMENT_VARIABLE := "conf"]} None
                   sample_pipeline)
                _ [("fix_a", conn_a)] (VStr "wtfix") (VInt 20) "wtfix");
        reflexivity.
    + reflexivity.
  - eapply eq_trans.
    + eapply (script_builds_pipeline
                (sample_process {[Conf.ENVIRONMENT_VARIABLE := "conf"]}
                   (Some "fix_q") sample_pipeline)
                _ [("fix_a", conn_a)] (VStr "wtfix") (VInt 20) "wtfix");
        reflexivity.
    + reflexivity.
Defined.

End RunClientExtra.
